(** * Browser-side authentication helpers (static/js/auth.js)

    A shallow embedding of the helper functions of [auth.js] and the
    properties of them that the specification states.

    JavaScript strings are sequences of UTF-16 code units; they are kept
    here as lists of code units, so that [length] is the JavaScript
    [.length] and the regular expressions of the source, which have no
    [u] flag, see exactly what they see in the browser. *)

From Stdlib Require Import Ascii String.
From Stdlib Require Import DecimalString DecimalPos.
From Stdlib Require Import List Bool Arith NArith ZArith Lia.
Import ListNotations.

Set Implicit Arguments.
Set Warnings "-register-all".

(** ** JavaScript strings *)

Module JsString.

Definition code_unit := N.
Definition js_string := list code_unit.

(** An ASCII literal of the source, as its code units. *)
Definition js (s : string) : js_string :=
  map N_of_ascii (list_ascii_of_string s).

Definition js_eqb (a b : js_string) : bool :=
  if list_eq_dec N.eq_dec a b then true else false.

(** [/[a-z]/], [/[A-Z]/], [/[0-9]/] (the last one is also [\d]). *)
Definition is_lower (c : code_unit) : bool := ((97 <=? c) && (c <=? 122))%N.
Definition is_upper (c : code_unit) : bool := ((65 <=? c) && (c <=? 90))%N.
Definition is_digit (c : code_unit) : bool := ((48 <=? c) && (c <=? 57))%N.

(** [/[^A-Za-z0-9]/]: a negated class also matches line terminators. *)
Definition is_special (c : code_unit) : bool :=
  negb (is_upper c || is_lower c || is_digit c).

(** [re.test(s)] for a one-character class [re]. *)
Definition test (cls : code_unit -> bool) (s : js_string) : bool :=
  existsb cls s.

(** White space and line terminators, as [String.prototype.trim] and
    [parseInt] strip them: TAB, LF, VT, FF, CR, SP, NBSP, U+1680,
    U+2000..U+200A, U+2028, U+2029, U+202F, U+205F, U+3000, U+FEFF. *)
Definition is_space (c : code_unit) : bool :=
  (((9 <=? c) && (c <=? 13)) || (c =? 32) || (c =? 160) || (c =? 5760)
   || ((8192 <=? c) && (c <=? 8202)) || (c =? 8232) || (c =? 8233)
   || (c =? 8239) || (c =? 8287) || (c =? 12288) || (c =? 65279))%N.

Fixpoint trimStart (s : js_string) : js_string :=
  match s with
  | c :: s' => if is_space c then trimStart s' else s
  | [] => []
  end.

Definition trimEnd (s : js_string) : js_string := rev (trimStart (rev s)).

Definition trim (s : js_string) : js_string := trimEnd (trimStart s).

(** [s.split(sep)] for a one-character separator: never the empty array. *)
Fixpoint split (sep : code_unit) (s : js_string) : list js_string :=
  match s with
  | [] => [[]]
  | c :: s' =>
      if (c =? sep)%N then [] :: split sep s'
      else match split sep s' with
           | h :: t => (c :: h) :: t
           | [] => [[c]]
           end
  end.

(** [s.startsWith(p)]. *)
Fixpoint startsWith (p s : js_string) : bool :=
  match p, s with
  | [], _ => true
  | _ :: _, [] => false
  | a :: p', b :: s' => (a =? b)%N && startsWith p' s'
  end.

(** [s.substring(i)] and [s.substring(i, j)] for [i <= j]. *)
Definition substring_from (i : nat) (s : js_string) : js_string := skipn i s.
Definition substring (i j : nat) (s : js_string) : js_string :=
  firstn (j - i) (skipn i s).

(** [s.replace(/\D/g, '')]. *)
Definition strip_non_digits (s : js_string) : js_string := filter is_digit s.

(** [n.toString()] for an integral number (below 1e21 in magnitude). *)
Definition toString (z : Z) : js_string :=
  js (NilZero.string_of_int (Z.to_int z)).

(** [s.padStart(2, '0')]. *)
Definition padStart2 (s : js_string) : js_string :=
  repeat 48%N (2 - length s) ++ s.

End JsString.

Import JsString.

(** ** Password strength meter: [checkPasswordStrength] *)

Module Password.

(** The two elements the function writes: [#strengthFill] (its style) and
    [#strengthText] (its text and colour). The function is taken on a
    page that has both. *)
Record meter := {
  fill_width : js_string;
  fill_color : js_string;
  text_content : js_string;
  text_color : js_string
}.

Definition bump (b : bool) (strength : nat) : nat :=
  if b then S strength else strength.

(** Lines 17-30: the six [if (...) strength++;] statements, in order,
    on the local [strength] that starts at 0. *)
Definition strength (password : js_string) : nat :=
  let s := 0 in
  let s := bump (8 <=? length password) s in
  let s := bump (12 <=? length password) s in
  let s := bump (test is_lower password) s in
  let s := bump (test is_upper password) s in
  let s := bump (test is_digit password) s in
  let s := bump (test is_special password) s in
  s.

Inductive tier := Weak | Medium | Strong.

(** [switch (true)]: the first [case] whose expression is [true]. *)
Definition tier_of (strength : nat) : tier :=
  if strength <=? 2 then Weak
  else if strength <=? 4 then Medium
  else Strong.

Definition width_of (t : tier) : js_string :=
  match t with
  | Weak => js "33%" | Medium => js "66%" | Strong => js "100%"
  end.

Definition color_of (t : tier) : js_string :=
  match t with
  | Weak => js "#dc3545" | Medium => js "#ffc107" | Strong => js "#198754"
  end.

(** The three labels of the source, as code units. *)
Definition label_weak : js_string := [1590; 1593; 1740; 1601]%N.
Definition label_medium : js_string := [1605; 1578; 1608; 1587; 1591]%N.
Definition label_strong : js_string := [1602; 1608; 1740]%N.

Definition text_of (t : tier) : js_string :=
  match t with
  | Weak => label_weak | Medium => label_medium | Strong => label_strong
  end.

Definition checkPasswordStrength (password : js_string) (m : meter) : meter :=
  match password with
  | [] =>
      {| fill_width := js "0%"; fill_color := js "#e9ecef";
         text_content := []; text_color := text_color m |}
  | _ :: _ =>
      let t := tier_of (strength password) in
      {| fill_width := width_of t; fill_color := color_of t;
         text_content := text_of t; text_color := color_of t |}
  end.

End Password.

(** ** Countdown timer: [startCountdown] *)

Module Countdown.

(** The [.resend-btn] control, when the page has one. *)
Record resend_btn := {
  disabled : bool;
  btn_text : js_string
}.

(** The closure of [startCountdown] together with what it touches:
    [remaining], the display element, the interval handle ([running] is
    [false] once [clearInterval(timer)] ran) and the resend button.
    [written] lists every value assigned to [display.textContent],
    oldest first. [remaining] is a whole number, counted exactly; the
    browser counts exactly up to 2^53 - 1 in magnitude. *)
Record timer := {
  remaining : Z;
  display_text : js_string;
  display_color : js_string;
  running : bool;
  resend : option resend_btn;
  written : list js_string
}.

Definition label_expired : js_string :=
  [1605; 1606; 1602; 1590; 1740; 32; 1588; 1583]%N.
Definition label_resend : js_string :=
  [1575; 1585; 1587; 1575; 1604; 32; 1605; 1580; 1583; 1583]%N.

(** [display.textContent = v]. *)
Definition set_text (v : js_string) (t : timer) : timer :=
  {| remaining := remaining t; display_text := v;
     display_color := display_color t; running := running t;
     resend := resend t; written := written t ++ [v] |}.

(** [`${minutes}:${secs.toString().padStart(2, '0')}`], with
    [minutes = Math.floor(remaining / 60)] and [secs = remaining % 60]
    ([%] truncates: its result has the sign of [remaining]). *)
Definition render (remaining : Z) : js_string :=
  let minutes := (remaining / 60)%Z in
  let secs := Z.rem remaining 60 in
  toString minutes ++ js ":" ++ padStart2 (toString secs).

(** The body of [if (remaining <= 0) { ... }]. *)
Definition expire (t : timer) : timer :=
  let t := set_text label_expired t in
  {| remaining := remaining t; display_text := display_text t;
     display_color := js "#dc3545"; running := false;
     resend := option_map
                 (fun _ => {| disabled := false; btn_text := label_resend |})
                 (resend t);
     written := written t |}.

(** [remaining--]. *)
Definition decrement (t : timer) : timer :=
  {| remaining := remaining t - 1; display_text := display_text t;
     display_color := display_color t; running := running t;
     resend := resend t; written := written t |}.

(** The interval callback, lines 86-106. *)
Definition callback (t : timer) : timer :=
  let t := set_text (render (remaining t)) t in
  let t := if (remaining t <=? 0)%Z then expire t else t in
  decrement t.

(** [startCountdown(seconds, id)] for a whole number of seconds, on a
    page whose element [id] shows [text] in colour [color]: nothing is
    written before the first tick. *)
Definition startCountdown (seconds : Z) (text color : js_string)
    (btn : option resend_btn) : timer :=
  {| remaining := seconds; display_text := text; display_color := color;
     running := true; resend := btn; written := [] |}.

(** One period of the host's interval: the callback runs unless the
    interval was cleared. *)
Definition tick (t : timer) : timer :=
  if running t then callback t else t.

Fixpoint ticks (n : nat) (t : timer) : timer :=
  match n with
  | O => t
  | S n' => ticks n' (tick t)
  end.

End Countdown.

(** ** Required-field check: [validateForm] *)

Module FormGuard.

(** A form control: whether it carries the [required] attribute, its
    [value] and its [classList] (an ordered set of tokens). *)
Record field := {
  required : bool;
  value : js_string;
  classList : list js_string
}.

Definition is_invalid : js_string := js "is-invalid".

Definition has_class (tok : js_string) (f : field) : bool :=
  existsb (js_eqb tok) (classList f).

(** [classList.add(tok)] and [classList.remove(tok)]. *)
Definition classList_add (tok : js_string) (f : field) : field :=
  {| required := required f; value := value f;
     classList := if has_class tok f then classList f
                  else classList f ++ [tok] |}.

Definition classList_remove (tok : js_string) (f : field) : field :=
  {| required := required f; value := value f;
     classList := filter (fun c => negb (js_eqb tok c)) (classList f) |}.

(** [!input.value.trim()]. *)
Definition blank (f : field) : bool :=
  match trim (value f) with [] => true | _ :: _ => false end.

(** The [forEach] over [form.querySelectorAll('[required]')], run over
    the form's controls in document order: controls without the attribute
    are not visited. [isValid] is the local of that name. *)
Fixpoint forEach (fields : list field) (isValid : bool)
    : list field * bool :=
  match fields with
  | [] => ([], isValid)
  | input :: rest =>
      if required input then
        if blank input then
          let (rest', v) := forEach rest false in
          (classList_add is_invalid input :: rest', v)
        else
          let (rest', v) := forEach rest isValid in
          (classList_remove is_invalid input :: rest', v)
      else
        let (rest', v) := forEach rest isValid in (input :: rest', v)
  end.

(** [validateForm(formId)], for the controls of the form [formId]: the
    form after the call and the result. *)
Definition validateForm (form : list field) : list field * bool :=
  forEach form true.

End FormGuard.

(** ** Phone numbers: [formatPhoneNumber] *)

Module Phone.

Definition formatPhoneNumber (phone : js_string) : js_string :=
  let phone := strip_non_digits phone in
  let phone :=
    if startsWith (js "98") phone then substring_from 2 phone else phone in
  let phone :=
    if startsWith (js "0") phone then substring_from 1 phone else phone in
  if length phone =? 10 then
    js "0" ++ substring 0 3 phone ++ js " " ++ substring 3 6 phone
      ++ js " " ++ substring 6 10 phone
  else phone.

End Phone.

(** ** The token cookie: [getToken] *)

Module Cookie.

(** What [getToken] can return: [null], [undefined] (a cookie named
    [access_token] without any [=]) or a string. *)
Inductive token :=
| TokNull
| TokUndefined
| TokStr (s : js_string).

Definition access_token : js_string := js "access_token".

(** [!token]. *)
Definition falsy (t : token) : bool :=
  match t with
  | TokNull | TokUndefined | TokStr [] => true
  | TokStr (_ :: _) => false
  end.

(** The text of a token inside a template literal. *)
Definition token_text (t : token) : js_string :=
  match t with
  | TokNull => js "null"
  | TokUndefined => js "undefined"
  | TokStr s => s
  end.

(** [const [name, value] = cookie.trim().split('=')]: the first two
    elements of the array, [None] where it has none. *)
Definition name_value (cookie : js_string)
    : option js_string * option js_string :=
  let parts := split 61%N (trim cookie) in
  (nth_error parts 0, nth_error parts 1).

(** The [for ... of] loop over the pieces of [document.cookie]. *)
Fixpoint scan (cookies : list js_string) : token :=
  match cookies with
  | [] => TokNull
  | cookie :: rest =>
      let (name, value) := name_value cookie in
      match name with
      | Some n =>
          if js_eqb n access_token then
            match value with
            | Some v => TokStr v
            | None => TokUndefined
            end
          else scan rest
      | None => scan rest
      end
  end.

(** [getToken()], for [document.cookie = cookie]. *)
Definition getToken (cookie : js_string) : token :=
  scan (split 59%N cookie).

End Cookie.

(** ** Authenticated requests: [showLoading], [hideLoading], [showToast]
    and [makeAuthRequest] *)

Module AuthFetch.

Import Cookie.

(** JSON values: request payloads and parsed response bodies. Numbers are
    integral here. *)
Inductive json :=
| JNull
| JBool (b : bool)
| JNum (z : Z)
| JStr (s : js_string)
| JArr (l : list json)
| JObj (l : list (js_string * json)).

Definition truthy (v : json) : bool :=
  match v with
  | JNull => false
  | JBool b => b
  | JNum z => negb (z =? 0)%Z
  | JStr s => match s with [] => false | _ :: _ => true end
  | JArr _ | JObj _ => true
  end.

Inductive js_error :=
| TypeError
| ReferenceError
| SyntaxError
| OtherError (tag : nat).

(** The [options] object given to [fetch], with the URL. The body is kept
    as the value that [JSON.stringify] serialises. *)
Record request := {
  req_url : js_string;
  req_method : js_string;
  req_headers : list (js_string * js_string);
  req_body : option json
}.

(** What the network does with a request: [fetch] rejects, or a response
    arrives whose [json()] gives a value or rejects. *)
Inductive body_outcome :=
| BodyJson (j : json)
| BodyRejects (e : js_error).

Inductive fetch_outcome :=
| FetchRejects (e : js_error)
| FetchResponds (status : Z) (body : body_outcome).

(** The [#liveToast] element: the text of its [.toast-body] child
    ([None] when it has no such child), its [className] and whether
    [show()] was called on it. *)
Record toast_el := {
  toast_body : option js_string;
  toast_class : js_string;
  toast_shown : bool
}.

(** Calls to the host, in the order they happen. *)
Inductive event :=
| EvRedirect (href : js_string)
| EvShowLoading (message : js_string)
| EvHideLoading
| EvFetch (r : request)
| EvToast (message type : js_string)
| EvConsoleError (label : js_string) (e : js_error).

(** The page: [document.cookie], [window.location.href], the messages of
    the [.loading-overlay] elements in document order, [#liveToast] if
    the page has it, whether the [bootstrap] global is defined, and the
    record of host calls. *)
Record world := {
  cookie : js_string;
  href : js_string;
  overlays : list js_string;
  liveToast : option toast_el;
  bootstrap : bool;
  log : list event
}.

(** Computations that change the page and either return or throw. *)
Definition M (A : Type) : Type := world -> (js_error + A) * world.

Definition ret {A} (a : A) : M A := fun w => (inr a, w).

Definition throw {A} (e : js_error) : M A := fun w => (inl e, w).

Definition bind {A B} (m : M A) (k : A -> M B) : M B :=
  fun w =>
    match m w with
    | (inr a, w') => k a w'
    | (inl e, w') => (inl e, w')
    end.

(** [try { m } catch (error) { h error }]. *)
Definition try_catch {A} (m : M A) (h : js_error -> M A) : M A :=
  fun w =>
    match m w with
    | (inl e, w') => h e w'
    | r => r
    end.

Declare Scope js_scope.
Delimit Scope js_scope with js.
Notation "x <- m ;; k" := (bind m (fun x => k))
  (at level 61, m at next level, right associativity) : js_scope.
Notation "m ;; k" := (bind m (fun _ => k))
  (at level 61, right associativity) : js_scope.
Local Open Scope js_scope.

Definition record (ev : event) (w : world) : world :=
  {| cookie := cookie w; href := href w; overlays := overlays w;
     liveToast := liveToast w; bootstrap := bootstrap w;
     log := log w ++ [ev] |}.

Definition read_cookie : M js_string := fun w => (inr (cookie w), w).

(** [window.location.href = target]. *)
Definition set_location (target : js_string) : M unit :=
  fun w =>
    (inr tt,
     record (EvRedirect target)
       {| cookie := cookie w; href := target; overlays := overlays w;
          liveToast := liveToast w; bootstrap := bootstrap w;
          log := log w |}).

(** [showLoading(message)]: one more overlay at the end of the body. *)
Definition showLoading (message : js_string) : M unit :=
  fun w =>
    (inr tt,
     record (EvShowLoading message)
       {| cookie := cookie w; href := href w;
          overlays := overlays w ++ [message];
          liveToast := liveToast w; bootstrap := bootstrap w;
          log := log w |}).

(** [hideLoading()]: the first overlay of the document goes, if any. *)
Definition hideLoading : M unit :=
  fun w =>
    (inr tt,
     record EvHideLoading
       {| cookie := cookie w; href := href w; overlays := tl (overlays w);
          liveToast := liveToast w; bootstrap := bootstrap w;
          log := log w |}).

(** [types[type] || 'alert-info'] for the four keys of [types]. *)
Definition toast_class_of (type : js_string) : js_string :=
  if js_eqb type (js "success") then js "alert-success"
  else if js_eqb type (js "error") then js "alert-danger"
  else if js_eqb type (js "warning") then js "alert-warning"
  else js "alert-info".

(** [showToast(message, type)]. [toastEl.querySelector] throws when the
    page has no [#liveToast], [new bootstrap.Toast] when the toolkit is
    not loaded, and [toastBody.textContent = ...] when the element has no
    [.toast-body]. *)
Definition showToast (message type : js_string) : M unit :=
  fun w =>
    match liveToast w with
    | None => (inl TypeError, w)
    | Some toastEl =>
        if negb (bootstrap w) then (inl ReferenceError, w)
        else
          match toast_body toastEl with
          | None => (inl TypeError, w)
          | Some _ =>
              (inr tt,
               record (EvToast message type)
                 {| cookie := cookie w; href := href w;
                    overlays := overlays w;
                    liveToast :=
                      Some {| toast_body := Some message;
                              toast_class :=
                                js "toast " ++ toast_class_of type;
                              toast_shown := true |};
                    bootstrap := bootstrap w; log := log w |})
          end
    end.

(** [console.error(label, error)]. *)
Definition console_error (label : js_string) (e : js_error) : M unit :=
  fun w => (inr tt, record (EvConsoleError label e) w).

Section Network.

(** The network the page talks to. *)
Variable net : request -> fetch_outcome.

(** [await fetch(url, options)]: the response, as its status and what
    its [json()] will give. *)
Definition fetch (r : request) : M (Z * body_outcome) :=
  fun w =>
    match net r with
    | FetchRejects e => (inl e, record (EvFetch r) w)
    | FetchResponds status body => (inr (status, body), record (EvFetch r) w)
    end.

(** [await response.json()]. *)
Definition response_json (body : body_outcome) : M json :=
  match body with
  | BodyJson j => ret j
  | BodyRejects e => throw e
  end.

Definition msg_sending : js_string :=
  [1583; 1585; 32; 1581; 1575; 1604; 32; 1575; 1585; 1587; 1575; 1604; 32;
   1583; 1585; 1582; 1608; 1575; 1587; 1578; 46; 46; 46]%N.
Definition msg_login_again : js_string :=
  [1604; 1591; 1601; 1575; 1611; 32; 1605; 1580; 1583; 1583; 1575; 1611; 32;
   1608; 1575; 1585; 1583; 32; 1588; 1608; 1740; 1583]%N.
Definition msg_server_error : js_string :=
  [1582; 1591; 1575; 32; 1583; 1585; 32; 1575; 1585; 1578; 1576; 1575; 1591;
   32; 1576; 1575; 32; 1587; 1585; 1608; 1585]%N.

(** The [options] of lines 223-235, with the URL of line 239. *)
Definition build_request (token : token) (url method : js_string)
    (data : json) : request :=
  {| req_url := js "/api/v1" ++ url;
     req_method := method;
     req_headers := [(js "Authorization", js "Bearer " ++ token_text token);
                     (js "Content-Type", js "application/json")];
     req_body :=
       if truthy data
          && (js_eqb method (js "POST") || js_eqb method (js "PUT"))
       then Some data else None |}.

(** [makeAuthRequest(url, method, data)]. The result is [inl e] when the
    promise rejects with [e]; [inr None] is [undefined] and
    [inr (Some JNull)] is [null]. *)
Definition makeAuthRequest (url method : js_string) (data : json)
    : M (option json) :=
  c <- read_cookie ;;
  let token := getToken c in
  if falsy token then
    set_location (js "/login") ;;
    ret None
  else
    let options := build_request token url method data in
    try_catch
      (showLoading msg_sending ;;
       response <- fetch options ;;
       hideLoading ;;
       if (fst response =? 401)%Z then
         showToast msg_login_again (js "warning") ;;
         set_location (js "/login") ;;
         ret (Some JNull)
       else
         j <- response_json (snd response) ;;
         ret (Some j))
      (fun error =>
         hideLoading ;;
         showToast msg_server_error (js "error") ;;
         console_error (js "API Error:") error ;;
         ret (Some JNull)).

End Network.

End AuthFetch.

(** ** The countdown seed of the page-load handler *)

Module TimerSeed.

Inductive js_number :=
| NaN
| Int (z : Z).

(** The value of a digit or letter as a digit of some radix. *)
Definition digit_value (c : code_unit) : option Z :=
  if is_digit c then Some (Z.of_N c - 48)%Z
  else if is_lower c then Some (Z.of_N c - 87)%Z
  else if is_upper c then Some (Z.of_N c - 55)%Z
  else None.

(** The longest prefix of [s] made of digits of radix [radix]. *)
Fixpoint digits_prefix (radix : Z) (s : js_string) : list Z :=
  match s with
  | [] => []
  | c :: s' =>
      match digit_value c with
      | Some d => if (d <? radix)%Z then d :: digits_prefix radix s' else []
      | None => []
      end
  end.

Definition value_of (radix : Z) (ds : list Z) : Z :=
  fold_left (fun acc d => acc * radix + d)%Z ds 0%Z.

(** [parseInt(s)] without a radix: leading white space, an optional sign,
    an optional [0x] or [0X], then the longest run of digits; [NaN] when
    that run is empty. The value is exact (the browser rounds it to a
    double above 2^53, and gives [-0] for a negative zero). *)
Definition parseInt (s : js_string) : js_number :=
  let s := trimStart s in
  let '(sign, s) :=
    match s with
    | c :: s' =>
        if (c =? 45)%N then ((-1)%Z, s')
        else if (c =? 43)%N then (1%Z, s')
        else (1%Z, s)
    | [] => (1%Z, s)
    end in
  let '(radix, s) :=
    match s with
    | c0 :: c1 :: s' =>
        if ((c0 =? 48) && ((c1 =? 120) || (c1 =? 88)))%N then (16%Z, s')
        else (10%Z, s)
    | _ => (10%Z, s)
    end in
  match digits_prefix radix s with
  | [] => NaN
  | ds => Int (sign * value_of radix ds)
  end.

(** [parseInt(timerElement.dataset.seconds || 300)]: [seconds] is the
    [data-seconds] attribute, [None] when the element has none (the
    property is then [undefined]). The number [300] reaches [parseInt]
    as the string ["300"]. *)
Definition countdownSeed (seconds : option js_string) : js_number :=
  match seconds with
  | Some ((_ :: _) as s) => parseInt s
  | Some [] | None => parseInt (toString 300)
  end.

End TimerSeed.

(** ** Session check: [isLoggedIn] *)

Module Session.

(** [s.includes(pat)]: [pat] occurs somewhere in [s]. *)
Fixpoint includes (pat s : js_string) : bool :=
  startsWith pat s
  || match s with
     | [] => false
     | _ :: s' => includes pat s'
     end.

(** [isLoggedIn()], for [document.cookie = cookie]. *)
Definition isLoggedIn (cookie : js_string) : bool :=
  includes Cookie.access_token cookie.

End Session.

(** ** One-time-code inputs: [setupOTPInputs] *)

Module Otp.

(** The [.otp-input] elements in document order, by their values, and
    the one of them that has the focus, if any. The inputs are taken to
    accept focus. *)
Record otp := {
  slots : list js_string;
  focus : option nat
}.

Definition Backspace : js_string := js "Backspace".

(** [otpInputs[i].focus()]. *)
Definition focus_on (i : nat) (st : otp) : otp :=
  {| slots := slots st; focus := Some i |}.

(** The [input] listener of the element at [index]; [e.target.value] is
    that element's value. *)
Definition on_input (index : nat) (st : otp) : otp :=
  match nth_error (slots st) index with
  | Some value =>
      if length value =? 1 then
        if index <? length (slots st) - 1 then focus_on (index + 1) st
        else st
      else st
  | None => st
  end.

(** The [keydown] listener of the element at [index], for [e.key = key]. *)
Definition on_keydown (index : nat) (key : js_string) (st : otp) : otp :=
  match nth_error (slots st) index with
  | Some value =>
      if js_eqb key Backspace
         && match value with [] => true | _ :: _ => false end
      then
        if 0 <? index then focus_on (index - 1) st else st
      else st
  | None => st
  end.

(** The value of the element at [index] becomes [value]. *)
Fixpoint set_slot (index : nat) (value : js_string) (l : list js_string)
    : list js_string :=
  match l, index with
  | [], _ => []
  | _ :: l', O => value :: l'
  | v :: l', S i => v :: set_slot i value l'
  end.

(** What the browser delivers: the element at [index] got the value
    [value] and its [input] event fires, or a key goes down in it. An
    edit that a key causes arrives as an [Input] of its own. *)
Inductive event :=
| Input (index : nat) (value : js_string)
| Keydown (index : nat) (key : js_string).

Definition step (st : otp) (ev : event) : otp :=
  match ev with
  | Input index value =>
      on_input index {| slots := set_slot index value (slots st);
                        focus := focus st |}
  | Keydown index key => on_keydown index key st
  end.

Definition run (evs : list event) (st : otp) : otp :=
  fold_left step evs st.

End Otp.

(** ** Clipboard: [copyToClipboard] *)

Module Clipboard.

Import AuthFetch.

Definition label_copied : js_string :=
  [1705; 1662; 1740; 32; 1588; 1583; 33]%N.
Definition msg_copy_failed : js_string :=
  [1582; 1591; 1575; 32; 1583; 1585; 32; 1705; 1662; 1740; 32; 1705; 1585;
   1583; 1606]%N.

Local Open Scope js_scope.

(** [copyToClipboard(text, message)] with the promise chain run to its end.
    [clipboard] is [navigator.clipboard]: [None] where the browser does not
    expose it, else what [writeText] does with a text ([None] when it
    resolves, the error when it rejects). [message] is [None] when the
    argument is left out. The result is [inl e] when [e] is thrown or the
    chain ends rejected with [e]. *)
Definition copyToClipboard (clipboard : option (js_string -> option js_error))
    (text : js_string) (message : option js_string) : M unit :=
  let message :=
    match message with
    | Some m => m
    | None => label_copied
    end in
  match clipboard with
  | None => throw TypeError
  | Some writeText =>
      try_catch
        (match writeText text with
         | None => showToast message (js "success")
         | Some err => throw err
         end)
        (fun err =>
           console_error (js "Could not copy text: ") err ;;
           showToast msg_copy_failed (js "error"))
  end.

End Clipboard.

(** ** The page-load handler *)

Module PageLoad.

Import Countdown TimerSeed.

(** An [input] element of a form: whether its [type] is [hidden], and
    whether it accepts focus (a disabled or undisplayed one does not). *)
Record input := {
  hidden : bool;
  focusable : bool
}.

(** [form.querySelector('input:not([type="hidden"])')]: the position of
    the first input that is not hidden. *)
Fixpoint first_input (form : list input) : option nat :=
  match form with
  | [] => None
  | i :: form' =>
      if hidden i then option_map S (first_input form') else Some 0
  end.

(** The [forEach] over the forms from the form at position [index] on;
    [active] is the focused input, as the position of its form and its
    own position in it. *)
Fixpoint focus_forms (index : nat) (forms : list (list input))
    (active : option (nat * nat)) : option (nat * nat) :=
  match forms with
  | [] => active
  | form :: rest =>
      let active :=
        match first_input form with
        | Some j =>
            match nth_error form j with
            | Some firstInput =>
                if focusable firstInput then Some (index, j) else active
            | None => active
            end
        | None => active
        end in
      focus_forms (S index) rest active
  end.

(** Lines 261-267. *)
Definition autofocus (forms : list (list input))
    (active : option (nat * nat)) : option (nat * nat) :=
  focus_forms 0 forms active.

(** The numbers the countdown of the page meets: whole numbers and
    [NaN], with the arithmetic of the callback on them. Whole numbers are
    exact up to 2^53. *)

(** [Math.floor(x / d)]. *)
Definition num_floor_div (x : js_number) (d : Z) : js_number :=
  match x with
  | NaN => NaN
  | Int z => Int (z / d)
  end.

(** [x % d]. *)
Definition num_rem (x : js_number) (d : Z) : js_number :=
  match x with
  | NaN => NaN
  | Int z => Int (Z.rem z d)
  end.

(** [x.toString()], also what a template literal makes of [x]. *)
Definition num_toString (x : js_number) : js_string :=
  match x with
  | NaN => js "NaN"
  | Int z => toString z
  end.

(** [x <= b]: false when [x] is [NaN]. *)
Definition num_le (x : js_number) (b : Z) : bool :=
  match x with
  | NaN => false
  | Int z => (z <=? b)%Z
  end.

(** [x--]. *)
Definition num_pred (x : js_number) : js_number :=
  match x with
  | NaN => NaN
  | Int z => Int (z - 1)
  end.

(** The closure of [startCountdown] as the handler starts it, where
    [remaining] may be [NaN]; the other fields are those of
    [Countdown.timer]. *)
Record clock := {
  clock_remaining : js_number;
  clock_text : js_string;
  clock_color : js_string;
  clock_running : bool;
  clock_resend : option resend_btn;
  clock_written : list js_string
}.

(** [display.textContent = v]. *)
Definition clock_set_text (v : js_string) (c : clock) : clock :=
  {| clock_remaining := clock_remaining c; clock_text := v;
     clock_color := clock_color c; clock_running := clock_running c;
     clock_resend := clock_resend c;
     clock_written := clock_written c ++ [v] |}.

(** The body of [if (remaining <= 0) { ... }]. *)
Definition clock_expire (c : clock) : clock :=
  let c := clock_set_text label_expired c in
  {| clock_remaining := clock_remaining c; clock_text := clock_text c;
     clock_color := js "#dc3545"; clock_running := false;
     clock_resend :=
       option_map
         (fun _ => {| disabled := false; btn_text := label_resend |})
         (clock_resend c);
     clock_written := clock_written c |}.

(** The interval callback, lines 86-106, on a [remaining] that may be
    [NaN]. *)
Definition clock_callback (c : clock) : clock :=
  let minutes := num_floor_div (clock_remaining c) 60 in
  let secs := num_rem (clock_remaining c) 60 in
  let c :=
    clock_set_text
      (num_toString minutes ++ js ":" ++ padStart2 (num_toString secs)) c in
  let c := if num_le (clock_remaining c) 0 then clock_expire c else c in
  {| clock_remaining := num_pred (clock_remaining c);
     clock_text := clock_text c; clock_color := clock_color c;
     clock_running := clock_running c; clock_resend := clock_resend c;
     clock_written := clock_written c |}.

(** [startCountdown(seconds, 'countdownTimer')] for the number that
    [parseInt] gave. *)
Definition start (seconds : js_number) (text color : js_string)
    (btn : option resend_btn) : clock :=
  {| clock_remaining := seconds; clock_text := text; clock_color := color;
     clock_running := true; clock_resend := btn; clock_written := [] |}.

(** Lines 283-287: [timerElement] is [None] on a page without the
    [#countdownTimer] element, else its [data-seconds] attribute, its
    text and its colour. *)
Definition start_timer
    (timerElement : option (option js_string * js_string * js_string))
    (btn : option resend_btn) : option clock :=
  match timerElement with
  | Some (seconds, text, color) =>
      Some (start (countdownSeed seconds) text color btn)
  | None => None
  end.

(** One period of the interval: the callback runs unless the interval
    was cleared. *)
Definition period (c : clock) : clock :=
  if clock_running c then clock_callback c else c.

Fixpoint periods (n : nat) (c : clock) : clock :=
  match n with
  | O => c
  | S n' => periods n' (period c)
  end.

(** A timer of [Countdown], whose [remaining] is a whole number, as a
    clock. *)
Definition of_timer (t : timer) : clock :=
  {| clock_remaining := Int (remaining t); clock_text := display_text t;
     clock_color := display_color t; clock_running := running t;
     clock_resend := resend t; clock_written := written t |}.

End PageLoad.

(** ** The vocabulary of the specification *)

Module Spec.

Import Password.

(** Character classes, as ranges of code units. *)
Definition lowercase (c : code_unit) : Prop := (97 <= c <= 122)%N.
Definition uppercase (c : code_unit) : Prop := (65 <= c <= 90)%N.
Definition digit (c : code_unit) : Prop := (48 <= c <= 57)%N.
Definition symbol (c : code_unit) : Prop :=
  ~ (uppercase c \/ lowercase c \/ digit c).

(** The string contains a character of the class. *)
Definition has (cls : code_unit -> Prop) (s : js_string) : Prop :=
  exists c, In c s /\ cls c.

(** Every character of the string is of the class. *)
Definition only (cls : code_unit -> Prop) (s : js_string) : Prop :=
  forall c, In c s -> cls c.

(** One point for a condition that holds, none for one that does not. *)
Inductive point (P : Prop) : nat -> Prop :=
| point_scored : P -> point P 1
| point_missed : ~ P -> point P 0.

(** What the meter shows for each tier. *)
Definition shown (t : tier) : meter :=
  match t with
  | Weak =>
      {| fill_width := js "33%"; fill_color := js "#dc3545";
         text_content := label_weak; text_color := js "#dc3545" |}
  | Medium =>
      {| fill_width := js "66%"; fill_color := js "#ffc107";
         text_content := label_medium; text_color := js "#ffc107" |}
  | Strong =>
      {| fill_width := js "100%"; fill_color := js "#198754";
         text_content := label_strong; text_color := js "#198754" |}
  end.

(** The text before the first [sep], the whole text when it has none. *)
Fixpoint before (sep : code_unit) (s : js_string) : js_string :=
  match s with
  | [] => []
  | c :: s' => if (c =? sep)%N then [] else c :: before sep s'
  end.

(** The name of one piece of a cookie string: what precedes its first
    [=], surrounding white space apart. *)
Definition cookie_name (piece : js_string) : js_string :=
  before 61%N (trim piece).

(** [s] without the leading [p], [s] itself when it does not begin so. *)
Fixpoint drop_prefix (p s : js_string) : option js_string :=
  match p, s with
  | [], _ => Some s
  | _ :: _, [] => None
  | a :: p', b :: s' => if (a =? b)%N then drop_prefix p' s' else None
  end.

Definition without_prefix (p s : js_string) : js_string :=
  match drop_prefix p s with
  | Some r => r
  | None => s
  end.

(** The digits of a phone number, in order, less a leading [98] and then
    a leading [0]. *)
Definition reduced (phone : js_string) : js_string :=
  without_prefix (js "0")
    (without_prefix (js "98") (filter is_digit phone)).

(** The values [seconds], [seconds - 1], ... that the first [k] ticks of
    a countdown render. *)
Definition countdown_from (seconds : Z) (k : nat) : list js_string :=
  map (fun i => Countdown.render (seconds - Z.of_nat i)) (seq 0 k).

(** The rendering of [r + 1] seconds is not ["0:00"]. *)
Definition below_minute_ok (r : nat) : bool :=
  negb (js_eqb (Countdown.render (Z.of_nat (S r))) (js "0:00")).

(** The largest whole number up to which JavaScript numbers count
    exactly, [Number.MAX_SAFE_INTEGER] = 2^53 - 1. *)
Definition max_safe_integer : Z := 9007199254740991.

(** The resend button once the countdown has expired. *)
Definition resend_enabled : Countdown.resend_btn :=
  {| Countdown.disabled := false;
     Countdown.btn_text := Countdown.label_resend |}.

(** Blank content: nothing but white space (possibly nothing at all). *)
Definition whitespace_only (s : js_string) : Prop :=
  forall c, In c s -> is_space c = true.

(** What [validateForm] does to one control. *)
Definition visited (f : FormGuard.field) : FormGuard.field :=
  if FormGuard.required f then
    if FormGuard.blank f
    then FormGuard.classList_add FormGuard.is_invalid f
    else FormGuard.classList_remove FormGuard.is_invalid f
  else f.

(** The control does not make the form invalid. *)
Definition passes (f : FormGuard.field) : bool :=
  negb (FormGuard.required f && FormGuard.blank f).

(** The page supplies the toast widget: the toolkit is loaded and
    [#liveToast] exists with a [.toast-body] child. *)
Definition toast_ready (w : AuthFetch.world) : Prop :=
  AuthFetch.bootstrap w = true /\
  exists el body,
    AuthFetch.liveToast w = Some el /\ AuthFetch.toast_body el = Some body.

(** The events of a request up to the arrival of the response. *)
Definition request_events (r : AuthFetch.request) : list AuthFetch.event :=
  [AuthFetch.EvShowLoading AuthFetch.msg_sending; AuthFetch.EvFetch r;
   AuthFetch.EvHideLoading].

(** The events of the [catch] block. *)
Definition recovery_events (e : AuthFetch.js_error) : list AuthFetch.event :=
  [AuthFetch.EvHideLoading;
   AuthFetch.EvToast AuthFetch.msg_server_error (js "error");
   AuthFetch.EvConsoleError (js "API Error:") e].

(** How many requests were sent, and how many overlays were shown. *)
Definition network_calls (l : list AuthFetch.event) : nat :=
  length (filter (fun ev => match ev with
                            | AuthFetch.EvFetch _ => true
                            | _ => false
                            end) l).

Definition overlays_shown (l : list AuthFetch.event) : nat :=
  length (filter (fun ev => match ev with
                            | AuthFetch.EvShowLoading _ => true
                            | _ => false
                            end) l).

(** A page that carries a token but has no [#liveToast] element, and a
    network that is down. *)
Definition page_without_toast : AuthFetch.world :=
  {| AuthFetch.cookie := js "access_token=abc";
     AuthFetch.href := js "/dashboard";
     AuthFetch.overlays := [];
     AuthFetch.liveToast := None;
     AuthFetch.bootstrap := true;
     AuthFetch.log := [] |}.

Definition offline (r : AuthFetch.request) : AuthFetch.fetch_outcome :=
  AuthFetch.FetchRejects AuthFetch.TypeError.

(** A page with the toast widget and no token. *)
Definition page_signed_out : AuthFetch.world :=
  {| AuthFetch.cookie := js "theme=dark; lang=fa";
     AuthFetch.href := js "/dashboard";
     AuthFetch.overlays := [];
     AuthFetch.liveToast :=
       Some {| AuthFetch.toast_body := Some [];
               AuthFetch.toast_class := js "toast";
               AuthFetch.toast_shown := false |};
     AuthFetch.bootstrap := true;
     AuthFetch.log := [] |}.

(** The same page with a token. *)
Definition page_signed_in : AuthFetch.world :=
  {| AuthFetch.cookie := js "theme=dark; access_token=abc";
     AuthFetch.href := js "/dashboard";
     AuthFetch.overlays := [];
     AuthFetch.liveToast :=
       Some {| AuthFetch.toast_body := Some [];
               AuthFetch.toast_class := js "toast";
               AuthFetch.toast_shown := false |};
     AuthFetch.bootstrap := true;
     AuthFetch.log := [] |}.

(** A server that answers every request with status 401. *)
Definition session_expired (r : AuthFetch.request)
    : AuthFetch.fetch_outcome :=
  AuthFetch.FetchResponds 401 (AuthFetch.BodyJson AuthFetch.JNull).

End Spec.

(** ** Further vocabulary *)

Module Extra.

(** The character of a decimal digit. *)
Definition digit_char (d : Z) : code_unit := Z.to_N (48 + d).

(** The seconds field of [k] seconds is its two decimal digits. *)
Definition two_digits_ok (k : nat) : bool :=
  js_eqb (padStart2 (toString (Z.of_nat k)))
    [digit_char (Z.of_nat k / 10); digit_char (Z.of_nat k mod 10)].

(** Typing the characters [cs], one per slot, from the slot [start] on. *)
Fixpoint typing (start : nat) (cs : list code_unit) : list Otp.event :=
  match cs with
  | [] => []
  | c :: cs' => Otp.Input start [c] :: typing (S start) cs'
  end.

(** Backspace in the slots [k], [k - 1], ..., 1, in that order. *)
Fixpoint erasing (k : nat) : list Otp.event :=
  match k with
  | O => []
  | S k' => Otp.Keydown k Otp.Backspace :: erasing k'
  end.

(** The form has a first input that is not hidden, and it accepts focus. *)
Definition takes_focus (form : list PageLoad.input) : bool :=
  match PageLoad.first_input form with
  | Some j =>
      match nth_error form j with
      | Some i => PageLoad.focusable i
      | None => false
      end
  | None => false
  end.

(** A decimal digit. *)
Definition is_decimal (k : Z) : Prop := (0 <= k <= 9)%Z.

(** The digits of a decimal numeral, most significant first. *)
Fixpoint udigits (d : Decimal.uint) : list Z :=
  match d with
  | Decimal.Nil => []
  | Decimal.D0 l => 0%Z :: udigits l
  | Decimal.D1 l => 1%Z :: udigits l
  | Decimal.D2 l => 2%Z :: udigits l
  | Decimal.D3 l => 3%Z :: udigits l
  | Decimal.D4 l => 4%Z :: udigits l
  | Decimal.D5 l => 5%Z :: udigits l
  | Decimal.D6 l => 6%Z :: udigits l
  | Decimal.D7 l => 7%Z :: udigits l
  | Decimal.D8 l => 8%Z :: udigits l
  | Decimal.D9 l => 9%Z :: udigits l
  end.

End Extra.

(** * Properties *)

Import Spec.

(** ** Strings *)

Section StringFacts.

Lemma is_lower_iff c : is_lower c = true <-> lowercase c.
Proof.
  unfold is_lower, lowercase.
  rewrite andb_true_iff, !N.leb_le. tauto.
Qed.

Lemma is_upper_iff c : is_upper c = true <-> uppercase c.
Proof.
  unfold is_upper, uppercase.
  rewrite andb_true_iff, !N.leb_le. tauto.
Qed.

Lemma is_digit_iff c : is_digit c = true <-> digit c.
Proof.
  unfold is_digit, digit.
  rewrite andb_true_iff, !N.leb_le. tauto.
Qed.

Lemma is_special_iff c : is_special c = true <-> symbol c.
Proof.
  unfold is_special, symbol.
  rewrite negb_true_iff, <- not_true_iff_false, !orb_true_iff.
  rewrite is_lower_iff, is_upper_iff, is_digit_iff. tauto.
Qed.

Lemma test_iff (cls : code_unit -> bool) (P : code_unit -> Prop) s :
  (forall c, cls c = true <-> P c) ->
  test cls s = true <-> has P s.
Proof.
  intros Hc. unfold test, has. rewrite existsb_exists.
  split; intros [c [Hin H]]; exists c; split; auto; now apply Hc.
Qed.

Lemma test_false_only (cls : code_unit -> bool) s :
  test cls s = false <-> forall c, In c s -> cls c = false.
Proof.
  unfold test. induction s as [|a s IH]; simpl.
  - split; [intros _ c [] | reflexivity].
  - rewrite orb_false_iff, IH. split.
    + intros [Ha Hs] c [<-|Hin]; auto.
    + intros H. split; [apply H; now left | intros c Hin; apply H; now right].
Qed.

Lemma js_eqb_eq a b : js_eqb a b = true <-> a = b.
Proof.
  unfold js_eqb. destruct (list_eq_dec N.eq_dec a b); split; congruence.
Qed.

Lemma js_eqb_refl a : js_eqb a a = true.
Proof. now apply js_eqb_eq. Qed.

Lemma js_eqb_neq a b : js_eqb a b = false <-> a <> b.
Proof.
  unfold js_eqb. destruct (list_eq_dec N.eq_dec a b); split; congruence.
Qed.

End StringFacts.

(** ** Password strength *)

Section PasswordFacts.

Import Password.

Lemma point_of_bool (P : Prop) (b : bool) :
  (b = true <-> P) -> point P (Nat.b2n b).
Proof.
  intros H. destruct b; simpl.
  - apply point_scored. now apply H.
  - apply point_missed. intros HP. apply H in HP. discriminate.
Qed.

Lemma strength_sum password :
  strength password =
    Nat.b2n (8 <=? length password) + Nat.b2n (12 <=? length password)
    + Nat.b2n (test is_lower password) + Nat.b2n (test is_upper password)
    + Nat.b2n (test is_digit password) + Nat.b2n (test is_special password).
Proof.
  unfold strength, bump.
  destruct (8 <=? length password), (12 <=? length password),
    (test is_lower password), (test is_upper password),
    (test is_digit password), (test is_special password); reflexivity.
Qed.

Lemma b2n_le_1 b : Nat.b2n b <= 1.
Proof. destruct b; simpl; lia. Qed.

(** C1. The score of a password starts at 0 and gains one point for each
    of: length at least 8, length at least 12, a lowercase letter, an
    uppercase letter, a digit, a character that is neither letter nor
    digit; it is never more than 6. *)
Theorem strength_is_sum_of_six_points (password : js_string) :
  exists p8 p12 pl pu pd ps,
    point (8 <= length password) p8 /\
    point (12 <= length password) p12 /\
    point (has lowercase password) pl /\
    point (has uppercase password) pu /\
    point (has digit password) pd /\
    point (has symbol password) ps /\
    strength password = 0 + p8 + p12 + pl + pu + pd + ps /\
    strength password <= 6.
Proof.
  exists (Nat.b2n (8 <=? length password)),
    (Nat.b2n (12 <=? length password)),
    (Nat.b2n (test is_lower password)), (Nat.b2n (test is_upper password)),
    (Nat.b2n (test is_digit password)), (Nat.b2n (test is_special password)).
  repeat split.
  - apply point_of_bool, Nat.leb_le.
  - apply point_of_bool, Nat.leb_le.
  - apply point_of_bool, test_iff, is_lower_iff.
  - apply point_of_bool, test_iff, is_upper_iff.
  - apply point_of_bool, test_iff, is_digit_iff.
  - apply point_of_bool, test_iff, is_special_iff.
  - apply strength_sum.
  - rewrite strength_sum.
    pose proof (b2n_le_1 (8 <=? length password)).
    pose proof (b2n_le_1 (12 <=? length password)).
    pose proof (b2n_le_1 (test is_lower password)).
    pose proof (b2n_le_1 (test is_upper password)).
    pose proof (b2n_le_1 (test is_digit password)).
    pose proof (b2n_le_1 (test is_special password)).
    lia.
Qed.

Lemma checkPasswordStrength_shown password m :
  password <> [] ->
  checkPasswordStrength password m = shown (tier_of (strength password)).
Proof.
  intros Hne. destruct password as [|c password]; [congruence|].
  unfold checkPasswordStrength.
  now destruct (tier_of (strength (c :: password))).
Qed.

(** A string made of one class has no character of another. *)
Ltac class_arith :=
  unfold is_special, symbol in *;
  unfold is_lower, is_upper, is_digit, lowercase, uppercase, digit in *;
  repeat match goal with
         | |- context [(?a <=? ?b)%N] => destruct (N.leb_spec a b)
         end;
  simpl; try reflexivity; lia.

Lemma only_excludes (P : code_unit -> Prop) (cls : code_unit -> bool) s :
  only P s -> (forall c, P c -> cls c = false) -> test cls s = false.
Proof.
  intros Ho Hd. apply test_false_only. intros c Hin. apply Hd, Ho, Hin.
Qed.

Lemma one_class_strength password :
  length password < 8 ->
  only lowercase password \/ only uppercase password \/
  only digit password \/ only symbol password ->
  strength password <= 1.
Proof.
  intros Hlen Hcls. rewrite strength_sum.
  assert (H8 : (8 <=? length password) = false) by (apply Nat.leb_gt; lia).
  assert (H12 : (12 <=? length password) = false) by (apply Nat.leb_gt; lia).
  rewrite H8, H12. simpl.
  destruct Hcls as [H|[H|[H|H]]].
  - rewrite (only_excludes is_upper H), (only_excludes is_digit H),
      (only_excludes is_special H); try (intros c Hc; class_arith).
    pose proof (b2n_le_1 (test is_lower password)). simpl. lia.
  - rewrite (only_excludes is_lower H), (only_excludes is_digit H),
      (only_excludes is_special H); try (intros c Hc; class_arith).
    pose proof (b2n_le_1 (test is_upper password)). simpl. lia.
  - rewrite (only_excludes is_lower H), (only_excludes is_upper H),
      (only_excludes is_special H); try (intros c Hc; class_arith).
    pose proof (b2n_le_1 (test is_digit password)). simpl. lia.
  - rewrite (only_excludes is_lower H), (only_excludes is_upper H),
      (only_excludes is_digit H); try (intros c Hc; class_arith).
    pose proof (b2n_le_1 (test is_special password)). simpl. lia.
Qed.

Lemma full_variety_strength password :
  12 <= length password ->
  has lowercase password -> has uppercase password ->
  has digit password -> has symbol password ->
  strength password = 6.
Proof.
  intros Hlen Hl Hu Hd Hs. rewrite strength_sum.
  apply (test_iff _ _ _ is_lower_iff) in Hl.
  apply (test_iff _ _ _ is_upper_iff) in Hu.
  apply (test_iff _ _ _ is_digit_iff) in Hd.
  apply (test_iff _ _ _ is_special_iff) in Hs.
  rewrite Hl, Hu, Hd, Hs.
  assert (H8 : (8 <=? length password) = true) by (apply Nat.leb_le; lia).
  assert (H12 : (12 <=? length password) = true) by (apply Nat.leb_le; lia).
  now rewrite H8, H12.
Qed.

(** C2. For a non-empty password the score picks the tier by ascending
    thresholds, the first match winning: at most 2 is weak (33%, #dc3545),
    at most 4 is medium (66%, #ffc107), anything above is strong (100%,
    #198754). A password of length at least 12 with a lowercase letter, an
    uppercase letter, a digit and a symbol scores 6 and is strong; one
    shorter than 8 made of a single character class is weak. *)
Theorem tier_by_ascending_thresholds (password : js_string) (m : meter) :
  password <> [] ->
  (strength password <= 2 ->
     checkPasswordStrength password m = shown Weak) /\
  (2 < strength password <= 4 ->
     checkPasswordStrength password m = shown Medium) /\
  (4 < strength password ->
     checkPasswordStrength password m = shown Strong) /\
  (12 <= length password ->
   has lowercase password -> has uppercase password ->
   has digit password -> has symbol password ->
     strength password = 6 /\
     checkPasswordStrength password m = shown Strong) /\
  (length password < 8 ->
   only lowercase password \/ only uppercase password \/
   only digit password \/ only symbol password ->
     checkPasswordStrength password m = shown Weak).
Proof.
  intros Hne. rewrite (checkPasswordStrength_shown m Hne).
  unfold tier_of. split; [|split; [|split; [|split]]].
  - intros H. apply Nat.leb_le in H. now rewrite H.
  - intros [H2 H4]. apply Nat.leb_gt in H2. apply Nat.leb_le in H4.
    now rewrite H2, H4.
  - intros H. assert (H2 : (strength password <=? 2) = false)
      by (apply Nat.leb_gt; lia).
    assert (H4 : (strength password <=? 4) = false)
      by (apply Nat.leb_gt; lia).
    now rewrite H2, H4.
  - intros Hlen Hl Hu Hd Hs.
    now rewrite (full_variety_strength Hlen Hl Hu Hd Hs).
  - intros Hlen Hcls. pose proof (one_class_strength Hlen Hcls) as H.
    assert (H2 : (strength password <=? 2) = true)
      by (apply Nat.leb_le; lia).
    now rewrite H2.
Qed.

(** The theorem at ["Tr0ub4dor&3x!"] (strong) and at ["abc"] (weak). *)
Lemma tier_by_ascending_thresholds_witness :
  checkPasswordStrength (js "Tr0ub4dor&3x!") (shown Weak) = shown Strong /\
  checkPasswordStrength (js "abc") (shown Strong) = shown Weak.
Proof.
  split.
  - refine (proj1 (proj2 (proj2 (@tier_by_ascending_thresholds
             (js "Tr0ub4dor&3x!") (shown Weak) _))) _).
    + discriminate.
    + vm_compute. lia.
  - refine (proj1 (@tier_by_ascending_thresholds
             (js "abc") (shown Strong) _) _).
    + discriminate.
    + vm_compute. lia.
Defined.

End PasswordFacts.

(** ** Countdown *)

Section CountdownFacts.

Import Countdown.

Lemma js_inj a b : js a = js b -> a = b.
Proof.
  unfold js. revert b.
  induction a as [|x a IH]; destruct b as [|y b]; simpl; try discriminate.
  - reflexivity.
  - intros H. injection H as Hxy Hab.
    apply (f_equal ascii_of_N) in Hxy. rewrite !ascii_N_embedding in Hxy.
    f_equal; auto.
Qed.

(** Only zero prints as ["0"]. *)
Lemma toString_positive_not_zero (m : Z) :
  (0 < m)%Z -> toString m <> js "0".
Proof.
  intros Hm H. destruct m as [|p|p]; try lia.
  unfold toString in H. apply js_inj in H. simpl in H.
  apply (f_equal NilZero.uint_of_string) in H.
  rewrite NilZero.usu in H by apply Unsigned.to_uint_nonnil.
  simpl in H. injection H as H.
  now apply (Unsigned.to_uint_nonzero p).
Qed.

Lemma render_below_minute r :
  r < 59 -> render (Z.of_nat (S r)) <> js "0:00".
Proof.
  intros Hr.
  assert (H : forallb below_minute_ok (seq 0 59) = true)
    by (vm_compute; reflexivity).
  rewrite forallb_forall in H.
  specialize (H r). unfold below_minute_ok in H.
  rewrite negb_true_iff in H. apply js_eqb_neq, H.
  apply in_seq. lia.
Qed.

(** ["0:00"] is the rendering of zero only. *)
Lemma render_positive (r : Z) : (1 <= r)%Z -> render r <> js "0:00".
Proof.
  intros Hr. destruct (Z_lt_le_dec r 60) as [Hlt|Hge].
  - replace r with (Z.of_nat (S (Z.to_nat (r - 1)))) by lia.
    apply render_below_minute. lia.
  - unfold render. intros H.
    assert (Hm : (0 < r / 60)%Z) by (apply Z.div_str_pos; lia).
    pose proof (toString_positive_not_zero Hm) as Hne.
    destruct (toString (r / 60)) as [|a [|b [|c [|d l]]]];
      simpl in H; try discriminate;
      try (injection H; intros; subst; congruence).
    + injection H as -> _. now apply Hne.
    + injection H; intros; subst.
      match goal with Hx : _ ++ _ = [] |- _ =>
        apply app_eq_nil in Hx; destruct Hx; discriminate end.
Qed.

Lemma ticks_add a b t : ticks (a + b) t = ticks b (ticks a t).
Proof.
  revert t. induction a as [|a IH]; intros t; simpl; auto.
Qed.

Lemma ticks_succ n t : ticks (S n) t = tick (ticks n t).
Proof.
  replace (S n) with (n + 1) by lia. now rewrite ticks_add.
Qed.

(** Once the interval is cleared nothing changes any more. *)
Lemma ticks_cleared n t : running t = false -> ticks n t = t.
Proof.
  intros H. induction n as [|n IH]; simpl; auto.
  unfold tick. now rewrite H.
Qed.

(** The timer after [k] ticks, while [k] does not exceed the seed. *)
Lemma ticks_while_counting (seconds : Z) text color btn (k : nat) :
  (Z.of_nat k <= seconds)%Z ->
  ticks k (startCountdown seconds text color btn) =
    {| remaining := seconds - Z.of_nat k;
       display_text :=
         match k with
         | O => text
         | S j => render (seconds - Z.of_nat j)
         end;
       display_color := color;
       running := true;
       resend := btn;
       written := countdown_from seconds k |}.
Proof.
  induction k as [|k IH]; intros Hk.
  - unfold startCountdown. simpl. f_equal. lia.
  - rewrite ticks_succ, IH by lia.
    unfold tick, callback, set_text, decrement. simpl running. cbv iota.
    cbn [remaining display_text display_color running resend written].
    assert (Hpos : (seconds - Z.of_nat k <=? 0)%Z = false)
      by (apply Z.leb_gt; lia).
    rewrite Hpos.
    cbn [remaining display_text display_color running resend written].
    f_equal; [lia|].
    unfold countdown_from. rewrite seq_S, map_app. reflexivity.
Qed.

(** The tick after those: ["0:00"] and the expired label are written one
    after the other and the interval is cleared. *)
Lemma ticks_at_expiry (n : nat) text color btn :
  ticks (S n) (startCountdown (Z.of_nat n) text color btn) =
    {| remaining := -1;
       display_text := label_expired;
       display_color := js "#dc3545";
       running := false;
       resend :=
         option_map
           (fun _ => {| disabled := false; btn_text := label_resend |}) btn;
       written :=
         countdown_from (Z.of_nat n) n ++ [js "0:00"; label_expired] |}.
Proof.
  rewrite ticks_succ, ticks_while_counting by lia.
  unfold tick, callback, set_text, expire, decrement. simpl running.
  cbv iota.
  cbn [remaining display_text display_color running resend written].
  rewrite Z.sub_diag. simpl Z.leb. cbv iota.
  cbn [remaining display_text display_color running resend written
       set_text].
  rewrite <- app_assoc. reflexivity.
Qed.

(** After a tick the display never reads ["0:00"]. *)
Lemma display_never_zero (seconds : Z) text color btn (k : nat) :
  (0 <= seconds)%Z ->
  display_text (ticks (S k) (startCountdown seconds text color btn))
    <> js "0:00".
Proof.
  intros Hs.
  destruct (le_lt_dec (S k) (Z.to_nat seconds)) as [Hle|Hgt].
  - rewrite ticks_while_counting by lia.
    cbn [display_text]. apply render_positive. lia.
  - remember (Z.to_nat seconds) as n eqn:Hn.
    assert (Hz : seconds = Z.of_nat n) by lia. clear Hn. subst seconds.
    replace (S k) with (S n + (k - n)) by lia.
    rewrite ticks_add, ticks_at_expiry, ticks_cleared by reflexivity.
    cbn [display_text]. discriminate.
Qed.

(** C3, as the code has it. Each tick renders the current remaining value
    and then decrements it, as long as that value is a whole number the
    browser counts exactly (at most 2^53 - 1 in magnitude). For a seed of
    [0 <= seconds <= 2^53 - 1] the ticks [1 .. seconds] leave the values
    [seconds .. 1] on display; the next tick writes ["0:00"] and, in the
    same tick, the expired label over it, and clears the interval. So
    ["0:00"] is never what a tick leaves on display: expiry fires in the
    tick that renders it, not one tick later. *)
Theorem zero_is_rendered_in_the_expiry_tick
    (seconds : Z) text color btn :
  (0 <= seconds <= max_safe_integer)%Z ->
  let t0 := startCountdown seconds text color btn in
  let n := Z.to_nat seconds in
  (forall t, running t = true ->
     (Z.abs (remaining t) <= max_safe_integer)%Z ->
     exists rest,
       written (tick t) = written t ++ render (remaining t) :: rest /\
       remaining (tick t) = (remaining t - 1)%Z) /\
  (forall k, k < n ->
     running (ticks (S k) t0) = true /\
     display_text (ticks (S k) t0) = render (seconds - Z.of_nat k) /\
     (1 <= seconds - Z.of_nat k)%Z) /\
  running (ticks n t0) = true /\
  written (ticks (S n) t0) =
    written (ticks n t0) ++ [js "0:00"; label_expired] /\
  display_text (ticks (S n) t0) = label_expired /\
  running (ticks (S n) t0) = false /\
  (forall k, display_text (ticks (S k) t0) <> js "0:00").
Proof.
  intros Hs t0 n. subst t0.
  assert (Hn : seconds = Z.of_nat n) by (subst n; lia).
  clearbody n. subst seconds.
  split; [|split; [|split; [|split; [|split; [|split]]]]].
  - intros t Hrun _. unfold tick. rewrite Hrun.
    unfold callback, set_text, expire, decrement.
    cbn [remaining display_text display_color running resend written].
    destruct (remaining t <=? 0)%Z;
      cbn [remaining display_text display_color running resend written];
      eexists; split; try reflexivity.
    unfold set_text. cbn [written]. rewrite <- app_assoc. reflexivity.
  - intros k Hk. rewrite ticks_while_counting by lia.
    cbn [running display_text].
    split; [reflexivity | split; [reflexivity | lia]].
  - rewrite ticks_while_counting by lia. reflexivity.
  - rewrite ticks_at_expiry, ticks_while_counting by lia. reflexivity.
  - now rewrite ticks_at_expiry.
  - now rewrite ticks_at_expiry.
  - intros k. now apply display_never_zero.
Qed.

(** The theorem at a seed of two seconds. *)
Lemma zero_is_rendered_in_the_expiry_tick_witness :
  written (ticks 3 (startCountdown 2 [] [] None)) =
    written (ticks 2 (startCountdown 2 [] [] None))
      ++ [js "0:00"; label_expired] /\
  running (ticks 3 (startCountdown 2 [] [] None)) = false.
Proof.
  assert (H : (0 <= 2 <= max_safe_integer)%Z)
    by (unfold max_safe_integer; lia).
  pose proof (@zero_is_rendered_in_the_expiry_tick 2 [] [] None H) as T.
  split; [exact (proj1 (proj2 (proj2 (proj2 T))))
         | exact (proj1 (proj2 (proj2 (proj2 (proj2 (proj2 T))))))].
Defined.

(** C3, as the specification words it, fails: from a seed of five seconds
    there is no tick after which the display reads ["0:00"] with the
    expired label still one tick away. *)
Lemma zero_not_shown_a_tick_before_expiry :
  ~ (exists k,
       display_text (ticks k (startCountdown 5 [] [] None)) = js "0:00" /\
       display_text (ticks (S k) (startCountdown 5 [] [] None))
         = label_expired).
Proof.
  intros [k [H _]]. destruct k as [|k].
  - discriminate H.
  - revert H. apply display_never_zero. lia.
Qed.

(** C4. A countdown from 5 shows "0:05", "0:04", "0:03", "0:02", "0:01" on
    its first five ticks; the sixth writes "0:00" and then the expired
    label, turns the display to the alert colour, re-enables the resend
    button if there is one and clears the interval; every later
    observation finds the same state. *)
Theorem countdown_from_five text color btn :
  let at_tick k := ticks k (startCountdown 5 text color btn) in
  display_text (at_tick 1) = js "0:05" /\
  display_text (at_tick 2) = js "0:04" /\
  display_text (at_tick 3) = js "0:03" /\
  display_text (at_tick 4) = js "0:02" /\
  display_text (at_tick 5) = js "0:01" /\
  written (at_tick 5) =
    [js "0:05"; js "0:04"; js "0:03"; js "0:02"; js "0:01"] /\
  running (at_tick 5) = true /\
  written (at_tick 6) = written (at_tick 5) ++ [js "0:00"; label_expired] /\
  display_text (at_tick 6) = label_expired /\
  display_color (at_tick 6) = js "#dc3545" /\
  resend (at_tick 6) = option_map (fun _ => resend_enabled) btn /\
  running (at_tick 6) = false /\
  (forall k, at_tick (6 + k) = at_tick 6).
Proof.
  intros at_tick. subst at_tick. cbv beta.
  pose proof (@ticks_at_expiry 5 text color btn) as H6.
  change (Z.of_nat 5) with 5%Z in H6.
  rewrite !H6. rewrite !ticks_while_counting by lia.
  cbn [remaining display_text display_color running resend written].
  repeat split.
  intros k. rewrite ticks_add, H6. now apply ticks_cleared.
Qed.

End CountdownFacts.

(** ** Required fields *)

Section FormFacts.

Import FormGuard.

Lemma trimStart_nil s : trimStart s = [] <-> whitespace_only s.
Proof.
  unfold whitespace_only. induction s as [|c s IH]; simpl.
  - split; [intros _ c [] | reflexivity].
  - destruct (is_space c) eqn:Hc.
    + rewrite IH. split.
      * intros H x [<-|Hin]; auto.
      * intros H x Hin. apply H. now right.
    + split; [discriminate|].
      intros H. specialize (H c (or_introl eq_refl)). congruence.
Qed.

Lemma trimStart_head s c r : trimStart s = c :: r -> is_space c = false.
Proof.
  induction s as [|a s IH]; simpl; [discriminate|].
  destruct (is_space a) eqn:Ha; auto.
  intros H. injection H as <- _. exact Ha.
Qed.

(** [trim] leaves nothing exactly when there was only white space. *)
Lemma trim_nil s : trim s = [] <-> whitespace_only s.
Proof.
  unfold trim, trimEnd. split.
  - intros H. apply trimStart_nil.
    destruct (trimStart s) as [|c r] eqn:Hs; [reflexivity|].
    apply (f_equal (@rev _)) in H. rewrite rev_involutive in H.
    simpl in H. apply trimStart_nil in H.
    pose proof (trimStart_head _ Hs) as Hc.
    rewrite (H c) in Hc; [discriminate|].
    apply in_or_app. right. now left.
  - intros H. apply trimStart_nil in H. now rewrite H.
Qed.

Lemma blank_iff f : blank f = true <-> whitespace_only (value f).
Proof.
  unfold blank. rewrite <- trim_nil.
  destruct (trim (value f)); split; congruence.
Qed.

Lemma blank_false_iff f : blank f = false <-> ~ whitespace_only (value f).
Proof.
  rewrite <- blank_iff. destruct (blank f); split; congruence.
Qed.

(** The loop visits every control once and keeps [isValid] false once a
    blank required control was met. *)
Lemma forEach_map fields isValid :
  forEach fields isValid =
    (map visited fields, isValid && forallb passes fields).
Proof.
  revert isValid. induction fields as [|f fields IH]; intros v; simpl.
  - now rewrite andb_true_r.
  - unfold visited at 1, passes at 1.
    destruct (required f); simpl.
    + destruct (blank f); simpl; rewrite IH; simpl.
      * now rewrite andb_false_r.
      * reflexivity.
    + now rewrite IH.
Qed.

Lemma has_class_added tok f : has_class tok (classList_add tok f) = true.
Proof.
  unfold classList_add. unfold has_class. cbn [classList].
  destruct (existsb (js_eqb tok) (classList f)) eqn:H; [exact H|].
  rewrite existsb_app. simpl. rewrite js_eqb_refl.
  now rewrite orb_true_r.
Qed.

Lemma has_class_removed tok f :
  has_class tok (classList_remove tok f) = false.
Proof.
  unfold classList_remove, has_class. simpl.
  induction (classList f) as [|c l IH]; simpl; auto.
  destruct (js_eqb tok c) eqn:H; simpl; [exact IH|].
  now rewrite H.
Qed.

(** Tokens other than the one added or removed stay as they were. *)
Lemma has_class_other tok f :
  tok <> is_invalid -> has_class tok (visited f) = has_class tok f.
Proof.
  intros Hne. unfold visited.
  destruct (required f); [|reflexivity].
  destruct (blank f).
  - unfold classList_add. unfold has_class. cbn [classList].
    destruct (existsb (js_eqb is_invalid) (classList f)); [reflexivity|].
    rewrite existsb_app. simpl.
    apply js_eqb_neq in Hne. now rewrite Hne, !orb_false_r.
  - unfold classList_remove, has_class. simpl.
    induction (classList f) as [|c l IH]; simpl; auto.
    destruct (js_eqb is_invalid c) eqn:H; simpl.
    + apply js_eqb_eq in H. subst c.
      apply js_eqb_neq in Hne. now rewrite Hne.
    + now rewrite IH.
Qed.

Lemma visited_keeps f :
  required (visited f) = required f /\ value (visited f) = value f.
Proof.
  unfold visited. destruct (required f) eqn:Hr; [|auto].
  destruct (blank f); simpl; auto.
Qed.

(** C8. [validateForm] returns true exactly when no required control of
    the form is blank (white space only); it leaves every blank required
    control with the [is-invalid] marker and every other required control
    without it, touching neither values, other tokens nor controls that
    are not required. On a form of one blank and one filled required
    control it returns false and marks the blank one only. *)
Theorem validateForm_flags_blank_required_fields (form : list field) :
  (snd (validateForm form) = true <->
     forall f, In f form -> required f = true ->
       ~ whitespace_only (value f)) /\
  (forall i f, nth_error form i = Some f ->
     exists f', nth_error (fst (validateForm form)) i = Some f' /\
       required f' = required f /\ value f' = value f /\
       (forall tok, tok <> is_invalid ->
          has_class tok f' = has_class tok f) /\
       (required f = true -> whitespace_only (value f) ->
          has_class is_invalid f' = true) /\
       (required f = true -> ~ whitespace_only (value f) ->
          has_class is_invalid f' = false) /\
       (required f = false -> f' = f)) /\
  length (fst (validateForm form)) = length form /\
  (forall a b,
     required a = true -> required b = true ->
     whitespace_only (value a) -> ~ whitespace_only (value b) ->
     exists a' b',
       validateForm [a; b] = ([a'; b'], false) /\
       has_class is_invalid a' = true /\
       has_class is_invalid b' = false).
Proof.
  unfold validateForm. rewrite forEach_map. cbn [fst snd andb].
  split; [|split; [|split]].
  - rewrite forallb_forall. split.
    + intros H f Hin Hr. apply blank_false_iff.
      specialize (H f Hin). unfold passes in H.
      rewrite Hr in H. simpl in H. now apply negb_true_iff in H.
    + intros H f Hin. unfold passes.
      destruct (required f) eqn:Hr; [|reflexivity]. simpl.
      apply negb_true_iff, blank_false_iff. now apply H.
  - intros i f Hi. exists (visited f).
    split; [now apply map_nth_error|].
    destruct (visited_keeps f) as [Hr Hv].
    split; [exact Hr|]. split; [exact Hv|].
    split; [intros tok Htok; now apply has_class_other|].
    unfold visited. split; [|split].
    + intros Hreq Hb. apply blank_iff in Hb. rewrite Hreq, Hb.
      apply has_class_added.
    + intros Hreq Hb. apply blank_false_iff in Hb. rewrite Hreq, Hb.
      apply has_class_removed.
    + intros Hreq. now rewrite Hreq.
  - apply length_map.
  - intros a b Ha Hb Hwa Hwb.
    apply blank_iff in Hwa. apply blank_false_iff in Hwb.
    exists (classList_add is_invalid a), (classList_remove is_invalid b).
    rewrite forEach_map. simpl. unfold visited, passes.
    rewrite Ha, Hb, Hwa, Hwb. simpl.
    split; [reflexivity|].
    split; [apply has_class_added | apply has_class_removed].
Qed.

(** The theorem at a form of a blank field that carries no marker and a
    filled field that carries one. *)
Lemma validateForm_flags_blank_required_fields_witness :
  exists a' b',
    validateForm
      [ {| required := true; value := js "  "; classList := [] |};
        {| required := true; value := js "ali";
           classList := [is_invalid] |} ] = ([a'; b'], false) /\
    has_class is_invalid a' = true /\
    has_class is_invalid b' = false.
Proof.
  refine (proj2 (proj2 (proj2
    (@validateForm_flags_blank_required_fields [])))
    {| required := true; value := js "  "; classList := [] |}
    {| required := true; value := js "ali"; classList := [is_invalid] |}
    _ _ _ _).
  - reflexivity.
  - reflexivity.
  - intros c Hc. vm_compute in Hc.
    destruct Hc as [<-|[<-|[]]]; reflexivity.
  - intros H. specialize (H 97%N). vm_compute in H.
    assert (E : false = true) by (apply H; left; reflexivity).
    discriminate E.
Defined.

End FormFacts.

(** ** Phone numbers *)

Section PhoneFacts.

Import Phone.

Lemma drop_prefix_startsWith p s :
  drop_prefix p s = if startsWith p s then Some (skipn (length p) s) else None.
Proof.
  revert s. induction p as [|a p IH]; intros s; simpl.
  - reflexivity.
  - destruct s as [|b s]; [reflexivity|].
    destruct (a =? b)%N; simpl; [apply IH | reflexivity].
Qed.

Lemma without_prefix_startsWith p s :
  without_prefix p s = if startsWith p s then skipn (length p) s else s.
Proof.
  unfold without_prefix. rewrite drop_prefix_startsWith.
  now destruct (startsWith p s).
Qed.

(** The function works on the digits of [reduced]. *)
Lemma formatPhoneNumber_reduced phone :
  formatPhoneNumber phone =
    let r := reduced phone in
    if length r =? 10 then
      js "0" ++ firstn 3 r ++ js " " ++ firstn 3 (skipn 3 r)
        ++ js " " ++ firstn 4 (skipn 6 r)
    else r.
Proof.
  unfold formatPhoneNumber, reduced, substring_from, substring,
    strip_non_digits.
  rewrite !without_prefix_startsWith. reflexivity.
Qed.

Lemma In_skipn (c : code_unit) n l : In c (skipn n l) -> In c l.
Proof.
  intros H. rewrite <- (firstn_skipn n l). apply in_or_app. now right.
Qed.

Lemma without_prefix_In p s (c : code_unit) :
  In c (without_prefix p s) -> In c s.
Proof.
  rewrite without_prefix_startsWith.
  destruct (startsWith p s); [apply In_skipn | auto].
Qed.

Lemma reduced_digits phone c : In c (reduced phone) -> digit c.
Proof.
  unfold reduced. intros H.
  do 2 apply without_prefix_In in H.
  apply filter_In in H. now apply is_digit_iff.
Qed.

(** C7, as the code has it. Both sample numbers come out as
    "0912 345 6789". When the digits of the input, less a leading 98 and
    then a leading 0, do not number exactly 10, the result is that digit
    string itself: digits only, no grouping. *)
Theorem formatPhoneNumber_returns_reduced_digits :
  formatPhoneNumber (js "989123456789") = js "0912 345 6789" /\
  formatPhoneNumber (js "09123456789") = js "0912 345 6789" /\
  (forall phone, length (reduced phone) <> 10 ->
     formatPhoneNumber phone = reduced phone /\
     (forall c, In c (formatPhoneNumber phone) -> digit c)).
Proof.
  split; [reflexivity|]. split; [reflexivity|].
  intros phone Hlen.
  assert (E : formatPhoneNumber phone = reduced phone).
  { rewrite formatPhoneNumber_reduced. cbv zeta.
    apply Nat.eqb_neq in Hlen. now rewrite Hlen. }
  split; [exact E|]. rewrite E. intros c. apply reduced_digits.
Qed.

(** The theorem at ["+98 21 1234"]. *)
Lemma formatPhoneNumber_returns_reduced_digits_witness :
  formatPhoneNumber (js "+98 21 1234") = js "211234".
Proof.
  refine (eq_trans (proj1 (proj2 (proj2
    formatPhoneNumber_returns_reduced_digits) (js "+98 21 1234") _)) _).
  - vm_compute. lia.
  - reflexivity.
Defined.

(** C7, as the specification words it, fails: ["0912"] does not reduce to
    ten digits, and it is not returned as it was given (["912"] is). *)
Lemma short_number_is_not_returned_as_given :
  ~ (length (reduced (js "0912")) <> 10 ->
     formatPhoneNumber (js "0912") = js "0912").
Proof.
  intros H.
  assert (Hlen : length (reduced (js "0912")) <> 10) by (vm_compute; lia).
  specialize (H Hlen). vm_compute in H. discriminate H.
Qed.

End PhoneFacts.

(** ** The token cookie *)

Section CookieFacts.

Import Cookie.

Lemma split_head sep s : exists t, split sep s = before sep s :: t.
Proof.
  induction s as [|c s [t IH]]; simpl.
  - now exists [].
  - destruct (c =? sep)%N.
    + now exists (split sep s).
    + rewrite IH. now exists t.
Qed.

Lemma split_at_separator sep a b :
  ~ In sep a -> split sep (a ++ sep :: b) = a :: split sep b.
Proof.
  induction a as [|c a IH]; intros Hn; simpl.
  - now rewrite N.eqb_refl.
  - destruct (N.eqb_spec c sep) as [->|Hne].
    + exfalso. apply Hn. now left.
    + rewrite IH; [reflexivity|]. intros Hin. apply Hn. now right.
Qed.

Lemma before_stops sep s : ~ In sep (before sep s).
Proof.
  induction s as [|c s IH]; simpl; [tauto|].
  destruct (N.eqb_spec c sep) as [->|Hne]; simpl; [tauto|].
  intros [H|H]; auto.
Qed.

(** The name the loop compares is the text before the first [=]. *)
Lemma name_value_name piece :
  fst (name_value piece) = Some (cookie_name piece).
Proof.
  unfold name_value, cookie_name. cbn [fst].
  destruct (split_head 61%N (trim piece)) as [t ->]. reflexivity.
Qed.

Lemma name_value_token piece v :
  trim piece = access_token ++ 61%N :: v ->
  name_value piece = (Some access_token, Some (before 61%N v)).
Proof.
  intros H. unfold name_value. rewrite H.
  rewrite split_at_separator.
  - destruct (split_head 61%N v) as [t ->]. reflexivity.
  - vm_compute. intuition discriminate.
Qed.

Lemma scan_skips pre rest :
  (forall p, In p pre -> cookie_name p <> access_token) ->
  scan (pre ++ rest) = scan rest.
Proof.
  induction pre as [|p pre IH]; intros H; [reflexivity|].
  cbn [app scan].
  pose proof (name_value_name p) as Hn.
  destruct (name_value p) as [name value]. cbn [fst] in Hn. subst name.
  assert (Hne : js_eqb (cookie_name p) access_token = false).
  { apply js_eqb_neq, H. now left. }
  rewrite Hne. apply IH. intros q Hq. apply H. now right.
Qed.

(** C10, as the code has it. [getToken] reads the first piece of the
    cookie string that is named [access_token], and no later one: when
    that piece reads [access_token=v], it returns [v] up to its first [=],
    not the whole of [v] when [v] itself contains an [=]. When no piece is
    named exactly [access_token] it returns [null]. *)
Theorem getToken_cuts_value_at_equals :
  (forall cookie pre piece post v,
     split 59%N cookie = pre ++ piece :: post ->
     (forall p, In p pre -> cookie_name p <> access_token) ->
     trim piece = access_token ++ 61%N :: v ->
     getToken cookie = TokStr (before 61%N v) /\
     (In 61%N v -> before 61%N v <> v)) /\
  (forall cookie,
     (forall p, In p (split 59%N cookie) -> cookie_name p <> access_token) ->
     getToken cookie = TokNull).
Proof.
  split.
  - intros cookie pre piece post v Hsplit Hpre Hpiece. split.
    + unfold getToken. rewrite Hsplit, scan_skips by exact Hpre.
      cbn [scan]. rewrite (name_value_token _ Hpiece).
      now rewrite js_eqb_refl.
    + intros Hin Heq. apply (before_stops 61%N v). now rewrite Heq.
  - intros cookie H. unfold getToken.
    rewrite <- (app_nil_r (split 59%N cookie)).
    now rewrite scan_skips.
Qed.

(** C10, as the specification words it, fails: the cookie string
    ["access_token=x; access_token=a=b"] contains an [access_token] cookie
    whose value ["a=b"] contains an [=], and [getToken] does not return
    the part of that value before its first [=]: it returns ["x"], the
    value of the first cookie of that name. *)
Lemma later_token_cookie_is_not_read :
  ~ (In (js " access_token=a=b")
        (split 59%N (js "access_token=x; access_token=a=b")) ->
     trim (js " access_token=a=b") = access_token ++ 61%N :: js "a=b" ->
     In 61%N (js "a=b") ->
     getToken (js "access_token=x; access_token=a=b")
       = TokStr (before 61%N (js "a=b"))).
Proof.
  intros H.
  assert (E : getToken (js "access_token=x; access_token=a=b")
              = TokStr (before 61%N (js "a=b"))).
  { apply H.
    - vm_compute. right. left. reflexivity.
    - reflexivity.
    - vm_compute. right. left. reflexivity. }
  vm_compute in E. discriminate E.
Qed.

(** The theorem at ["theme=dark; access_token=abc=def; lang=fa"] and at
    ["theme=dark; lang=fa"]. *)
Lemma getToken_cuts_value_at_equals_witness :
  getToken (js "theme=dark; access_token=abc=def; lang=fa")
    = TokStr (js "abc") /\
  getToken (js "theme=dark; lang=fa") = TokNull.
Proof.
  split.
  - refine (proj1 (proj1 getToken_cuts_value_at_equals
      (js "theme=dark; access_token=abc=def; lang=fa")
      [js "theme=dark"] (js " access_token=abc=def") [js " lang=fa"]
      (js "abc=def") _ _ _)).
    + reflexivity.
    + intros p [<-|[]]. vm_compute. discriminate.
    + reflexivity.
  - refine (proj2 getToken_cuts_value_at_equals
      (js "theme=dark; lang=fa") _).
    intros p Hp. vm_compute in Hp.
    destruct Hp as [<-|[<-|[]]]; vm_compute; discriminate.
Defined.

End CookieFacts.

(** ** Authenticated requests *)

Section AuthFetchFacts.

Import Cookie AuthFetch.

Variable net : request -> fetch_outcome.

Ltac run_request :=
  unfold makeAuthRequest, try_catch, bind, read_cookie, showLoading, fetch,
    hideLoading, showToast, set_location, console_error, response_json,
    ret, throw, record;
  cbn [cookie href overlays liveToast bootstrap log fst snd negb
       toast_body toast_class toast_shown].

(** C5. Without a token (no [access_token] cookie, one without a value or
    one with an empty value) [makeAuthRequest] sends the browser to
    [/login] and resolves to [undefined]; that redirect is the only host
    call it makes: no request is sent and no loading overlay is shown. *)
Theorem makeAuthRequest_without_token_only_redirects
    (url method : js_string) (data : json) (w : world) :
  falsy (getToken (cookie w)) = true ->
  let run := makeAuthRequest net url method data w in
  fst run = inr None /\
  href (snd run) = js "/login" /\
  log (snd run) = log w ++ [EvRedirect (js "/login")] /\
  network_calls (log (snd run)) = network_calls (log w) /\
  overlays_shown (log (snd run)) = overlays_shown (log w) /\
  overlays (snd run) = overlays w.
Proof.
  intros Hno run. subst run. run_request. rewrite Hno.
  cbn [cookie href overlays liveToast bootstrap log fst snd].
  unfold network_calls, overlays_shown.
  rewrite !filter_app, !length_app. simpl.
  repeat split; lia.
Qed.

(** C6, as the code has it. On a page that supplies the toast widget,
    [makeAuthRequest] never rejects. With a token: a 401 response gives a
    warning toast, the redirect to [/login] and [null]; a rejected [fetch]
    or a rejected [json()] is caught, [hideLoading] runs, the error toast
    is shown, the error is logged and the result is [null]; only a
    response other than 401 whose body parses gives that body. *)
Theorem makeAuthRequest_recovers_where_toast_exists
    (url method : js_string) (data : json) (w : world) :
  toast_ready w ->
  let run := makeAuthRequest net url method data w in
  let request := build_request (getToken (cookie w)) url method data in
  (exists v, fst run = inr v) /\
  (falsy (getToken (cookie w)) = false ->
   (overlays w = [] -> overlays (snd run) = []) /\
   match net request with
   | FetchRejects e =>
       fst run = inr (Some JNull) /\
       log (snd run) =
         log w ++ [EvShowLoading msg_sending; EvFetch request]
               ++ recovery_events e
   | FetchResponds status body =>
       if (status =? 401)%Z then
         fst run = inr (Some JNull) /\
         href (snd run) = js "/login" /\
         log (snd run) =
           log w ++ request_events request
                 ++ [EvToast msg_login_again (js "warning");
                     EvRedirect (js "/login")]
       else
         match body with
         | BodyJson j =>
             fst run = inr (Some j) /\
             log (snd run) = log w ++ request_events request
         | BodyRejects e =>
             fst run = inr (Some JNull) /\
             log (snd run) =
               log w ++ request_events request ++ recovery_events e
         end
   end).
Proof.
  intros [Hboot [el [body [Htoast Hbody]]]] run request.
  subst run request.
  remember (build_request (getToken (cookie w)) url method data) as rq.
  split.
  - run_request.
    destruct (falsy (getToken (cookie w))); [now eexists|].
    rewrite <- Heqrq.
    destruct (net rq) as [e|status rbody];
      cbn [cookie href overlays liveToast bootstrap log fst snd negb
           toast_body toast_class toast_shown];
      rewrite ?Htoast, ?Hboot, ?Hbody; cbn [negb]; rewrite ?Hbody;
      [now eexists|].
    destruct (status =? 401)%Z;
      cbn [cookie href overlays liveToast bootstrap log fst snd negb
           toast_body toast_class toast_shown];
      rewrite ?Htoast, ?Hboot, ?Hbody; cbn [negb]; rewrite ?Hbody;
      [now eexists|].
    destruct rbody as [j|e]; run_request;
      rewrite ?Htoast, ?Hboot, ?Hbody; cbn [negb]; rewrite ?Hbody;
      now eexists.
  - intros Htok. run_request. rewrite Htok, <- Heqrq.
    unfold request_events, recovery_events.
    destruct (net rq) as [e|status rbody];
      cbn [cookie href overlays liveToast bootstrap log fst snd negb
           toast_body toast_class toast_shown];
      rewrite ?Htoast, ?Hboot, ?Hbody; cbn [negb]; rewrite ?Hbody;
      cbn [cookie href overlays liveToast bootstrap log fst snd].
    + split; [intros ->; reflexivity|].
      split; [reflexivity|]. now rewrite <- !app_assoc.
    + destruct (status =? 401)%Z;
        cbn [cookie href overlays liveToast bootstrap log fst snd negb
             toast_body toast_class toast_shown];
        rewrite ?Htoast, ?Hboot, ?Hbody; cbn [negb]; rewrite ?Hbody;
        cbn [cookie href overlays liveToast bootstrap log fst snd].
      * split; [intros ->; reflexivity|].
        split; [reflexivity|]. split; [reflexivity|].
        now rewrite <- !app_assoc.
      * destruct rbody as [j|e]; run_request;
          rewrite ?Htoast, ?Hboot, ?Hbody; cbn [negb]; rewrite ?Hbody;
          cbn [cookie href overlays liveToast bootstrap log fst snd].
        -- split; [intros ->; reflexivity|].
           split; [reflexivity|]. now rewrite <- !app_assoc.
        -- split; [intros ->; reflexivity|].
           split; [reflexivity|]. now rewrite <- !app_assoc.
Qed.

End AuthFetchFacts.

Section AuthFetchInstances.

Import Cookie AuthFetch.

(** The theorem at a signed-out page. *)
Lemma makeAuthRequest_without_token_only_redirects_witness :
  fst (makeAuthRequest offline (js "/users/me") (js "GET") JNull
         page_signed_out) = inr None /\
  log (snd (makeAuthRequest offline (js "/users/me") (js "GET") JNull
              page_signed_out)) = [EvRedirect (js "/login")].
Proof.
  assert (H : falsy (getToken (cookie page_signed_out)) = true)
    by reflexivity.
  pose proof (@makeAuthRequest_without_token_only_redirects offline
                (js "/users/me") (js "GET") JNull page_signed_out H) as T.
  split; [exact (proj1 T) | exact (proj1 (proj2 (proj2 T)))].
Defined.

(** The theorem at a signed-in page whose session has expired. *)
Lemma makeAuthRequest_recovers_where_toast_exists_witness :
  fst (makeAuthRequest session_expired (js "/users/me") (js "GET") JNull
         page_signed_in) = inr (Some JNull) /\
  href (snd (makeAuthRequest session_expired (js "/users/me") (js "GET")
               JNull page_signed_in)) = js "/login".
Proof.
  assert (H : toast_ready page_signed_in)
    by (split; [reflexivity | eexists _, _; split; reflexivity]).
  assert (Htok : falsy (getToken (cookie page_signed_in)) = false)
    by reflexivity.
  pose proof (proj2 (proj2 (@makeAuthRequest_recovers_where_toast_exists
                session_expired (js "/users/me") (js "GET") JNull
                page_signed_in H) Htok)) as T.
  split; [exact (proj1 T) | exact (proj1 (proj2 T))].
Defined.

(** C6, as the specification words it, fails: on a page without the
    [#liveToast] element, when [fetch] rejects, the [catch] block itself
    throws in [showToast] and the promise rejects. *)
Lemma rejection_escapes_without_toast_element :
  fst (makeAuthRequest offline (js "/users/me") (js "GET") JNull
         page_without_toast) = inl TypeError.
Proof. reflexivity. Qed.

End AuthFetchInstances.

(** ** The countdown seed *)

Section TimerSeedFacts.

Import TimerSeed.

(** C9, as the code has it. The seed is 300 when the [seconds] attribute
    is absent or empty; any other attribute text goes to [parseInt]
    as it is, whatever that makes of it. *)
Theorem countdownSeed_defaults_when_absent_or_empty :
  countdownSeed None = Int 300 /\
  countdownSeed (Some []) = Int 300 /\
  (forall s, s <> [] -> countdownSeed (Some s) = parseInt s).
Proof.
  split; [reflexivity|]. split; [reflexivity|].
  intros s Hs. destruct s as [|c s]; [congruence | reflexivity].
Qed.

(** The theorem at ["90"]. *)
Lemma countdownSeed_defaults_when_absent_or_empty_witness :
  countdownSeed (Some (js "90")) = Int 90.
Proof.
  refine (eq_trans (proj2 (proj2
    countdownSeed_defaults_when_absent_or_empty) (js "90") _) _).
  - discriminate.
  - reflexivity.
Defined.

(** C9, as the specification words it, fails: ["soon"] does not parse as
    a number, and the seed is then [NaN], not 300. *)
Lemma unparseable_seconds_do_not_default :
  ~ (parseInt (js "soon") = NaN ->
     countdownSeed (Some (js "soon")) = Int 300).
Proof.
  intros H. specialize (H eq_refl). vm_compute in H. discriminate H.
Qed.

End TimerSeedFacts.

(** * Further properties of the code *)

Import Extra.

(** ** Password strength: bounds and monotonicity *)

Section PasswordBounds.

Import Password.

Lemma b2n_mono (a b : bool) :
  (a = true -> b = true) -> Nat.b2n a <= Nat.b2n b.
Proof.
  destruct a, b; simpl; intros H; try lia; discriminate (H eq_refl).
Qed.

Lemma class_cover c :
  is_lower c || is_upper c || is_digit c || is_special c = true.
Proof.
  unfold is_special.
  destruct (is_lower c), (is_upper c), (is_digit c); reflexivity.
Qed.

Lemma class_points password :
  password <> [] ->
  1 <= Nat.b2n (test is_lower password) + Nat.b2n (test is_upper password)
       + Nat.b2n (test is_digit password)
       + Nat.b2n (test is_special password).
Proof.
  intros Hne. destruct password as [|c password]; [congruence|].
  unfold test. cbn [existsb].
  pose proof (class_cover c) as Hc.
  destruct (is_lower c); [simpl; lia|].
  destruct (is_upper c); [simpl; lia|].
  destruct (is_digit c); [simpl; lia|].
  simpl in Hc. rewrite Hc. simpl. lia.
Qed.

(** X1. A password that is not empty never scores 0: each of its
    characters is a lowercase letter, an uppercase letter, a digit or a
    symbol. *)
Theorem nonempty_password_scores password :
  password <> [] -> 1 <= strength password.
Proof.
  intros Hne. rewrite strength_sum.
  pose proof (class_points Hne). lia.
Qed.

Lemma nonempty_password_scores_witness : 1 <= strength (js "a").
Proof.
  apply nonempty_password_scores. discriminate.
Defined.

(** X2. Length caps the tier: with fewer than 8 characters the score is
    at most 4 and the meter never shows the strong tier; with 12 or more
    the score is at least 3 and the meter never shows the weak tier. *)
Theorem length_caps_the_tier password (m : meter) :
  (length password < 8 ->
     strength password <= 4 /\
     checkPasswordStrength password m <> shown Strong) /\
  (12 <= length password ->
     3 <= strength password /\
     checkPasswordStrength password m <> shown Weak).
Proof.
  split; intros Hlen.
  - assert (Hs : strength password <= 4).
    { rewrite strength_sum.
      assert (H8 : (8 <=? length password) = false)
        by (apply Nat.leb_gt; lia).
      assert (H12 : (12 <=? length password) = false)
        by (apply Nat.leb_gt; lia).
      rewrite H8, H12.
      pose proof (b2n_le_1 (test is_lower password)).
      pose proof (b2n_le_1 (test is_upper password)).
      pose proof (b2n_le_1 (test is_digit password)).
      pose proof (b2n_le_1 (test is_special password)).
      simpl. lia. }
    split; [exact Hs|].
    destruct password as [|c password]; [discriminate|].
    rewrite checkPasswordStrength_shown by discriminate.
    unfold tier_of.
    destruct (strength (c :: password) <=? 2) eqn:H2; [discriminate|].
    destruct (strength (c :: password) <=? 4) eqn:H4; [discriminate|].
    apply Nat.leb_gt in H4. lia.
  - assert (Hne : password <> [])
      by (destruct password; simpl in Hlen; [lia | discriminate]).
    pose proof (class_points Hne) as H1.
    assert (Hs : 3 <= strength password).
    { rewrite strength_sum.
      assert (H8 : (8 <=? length password) = true)
        by (apply Nat.leb_le; lia).
      assert (H12 : (12 <=? length password) = true)
        by (apply Nat.leb_le; lia).
      rewrite H8, H12. simpl. lia. }
    split; [exact Hs|].
    rewrite checkPasswordStrength_shown by exact Hne.
    unfold tier_of.
    destruct (strength password <=? 2) eqn:H2.
    + apply Nat.leb_le in H2. lia.
    + destruct (strength password <=? 4); discriminate.
Qed.

Lemma length_caps_the_tier_witness :
  checkPasswordStrength (js "aB3$xyz") (shown Weak) <> shown Strong /\
  checkPasswordStrength (js "aaaaaaaaaaaa") (shown Strong) <> shown Weak.
Proof.
  split.
  - refine (proj2 (proj1 (length_caps_the_tier (js "aB3$xyz")
                            (shown Weak)) _)).
    vm_compute. lia.
  - refine (proj2 (proj2 (length_caps_the_tier (js "aaaaaaaaaaaa")
                            (shown Strong)) _)).
    vm_compute. lia.
Defined.

Lemma test_app_l cls p q : test cls p = true -> test cls (p ++ q) = true.
Proof.
  unfold test. rewrite existsb_app. intros ->. reflexivity.
Qed.

Lemma test_app_r cls p q : test cls q = true -> test cls (p ++ q) = true.
Proof.
  unfold test. rewrite existsb_app. intros ->. apply orb_true_r.
Qed.

Lemma strength_app_l p q : strength p <= strength (p ++ q).
Proof.
  rewrite !strength_sum, length_app.
  pose proof (b2n_mono (@test_app_l is_lower p q)).
  pose proof (b2n_mono (@test_app_l is_upper p q)).
  pose proof (b2n_mono (@test_app_l is_digit p q)).
  pose proof (b2n_mono (@test_app_l is_special p q)).
  assert (Nat.b2n (8 <=? length p) <= Nat.b2n (8 <=? length p + length q))
    by (apply b2n_mono; rewrite !Nat.leb_le; lia).
  assert (Nat.b2n (12 <=? length p) <= Nat.b2n (12 <=? length p + length q))
    by (apply b2n_mono; rewrite !Nat.leb_le; lia).
  lia.
Qed.

Lemma strength_app_r p q : strength q <= strength (p ++ q).
Proof.
  rewrite !strength_sum, length_app.
  pose proof (b2n_mono (@test_app_r is_lower p q)).
  pose proof (b2n_mono (@test_app_r is_upper p q)).
  pose proof (b2n_mono (@test_app_r is_digit p q)).
  pose proof (b2n_mono (@test_app_r is_special p q)).
  assert (Nat.b2n (8 <=? length q) <= Nat.b2n (8 <=? length p + length q))
    by (apply b2n_mono; rewrite !Nat.leb_le; lia).
  assert (Nat.b2n (12 <=? length q) <= Nat.b2n (12 <=? length p + length q))
    by (apply b2n_mono; rewrite !Nat.leb_le; lia).
  lia.
Qed.

(** X3. Typing more never lowers the score: the score of a text is at
    least the score of any part it starts or ends with. *)
Theorem longer_password_scores_no_less (p q : js_string) :
  strength p <= strength (p ++ q) /\ strength q <= strength (p ++ q).
Proof.
  split; [apply strength_app_l | apply strength_app_r].
Qed.

End PasswordBounds.

(** ** Countdown: edge seeds and the display format *)

Section CountdownEdges.

Import Countdown.

(** X4. A countdown started with zero or a negative number of seconds
    expires on its first tick: that tick writes the rendering of the seed
    and then the expired label, enables the resend button if there is one
    and clears the interval, and nothing changes afterwards. *)
Theorem nonpositive_seed_expires_on_first_tick
    (seconds : Z) text color btn :
  (seconds <= 0)%Z ->
  let t := tick (startCountdown seconds text color btn) in
  written t = [render seconds; label_expired] /\
  display_text t = label_expired /\
  display_color t = js "#dc3545" /\
  resend t = option_map (fun _ => resend_enabled) btn /\
  running t = false /\
  (forall k, ticks (S k) (startCountdown seconds text color btn) = t).
Proof.
  intros Hs t.
  assert (E : t =
    {| remaining := seconds - 1;
       display_text := label_expired;
       display_color := js "#dc3545";
       running := false;
       resend := option_map (fun _ => resend_enabled) btn;
       written := [render seconds; label_expired] |}).
  { subst t.
    unfold tick, startCountdown, callback, set_text, expire, decrement.
    cbn [remaining display_text display_color running resend written].
    apply Z.leb_le in Hs. rewrite Hs. reflexivity. }
  clearbody t. subst t.
  cbn [remaining display_text display_color running resend written].
  repeat (split; [reflexivity|]).
  intros k. cbn [ticks].
  assert (E : tick (startCountdown seconds text color btn) =
    {| remaining := seconds - 1;
       display_text := label_expired;
       display_color := js "#dc3545";
       running := false;
       resend := option_map (fun _ => resend_enabled) btn;
       written := [render seconds; label_expired] |}).
  { unfold tick, startCountdown, callback, set_text, expire, decrement.
    cbn [remaining display_text display_color running resend written].
    apply Z.leb_le in Hs. rewrite Hs. reflexivity. }
  rewrite E. now apply ticks_cleared.
Qed.

Lemma nonpositive_seed_expires_on_first_tick_witness :
  written (tick (startCountdown (-5) [] [] None))
    = [js "-1:-5"; label_expired].
Proof.
  refine (proj1 (@nonpositive_seed_expires_on_first_tick (-5) [] [] None _)).
  lia.
Defined.

Lemma seconds_field_two_digits (s : Z) :
  (0 <= s < 60)%Z ->
  padStart2 (toString s) = [digit_char (s / 10); digit_char (s mod 10)].
Proof.
  intros Hs.
  assert (H : forallb two_digits_ok (seq 0 60) = true)
    by (vm_compute; reflexivity).
  rewrite forallb_forall in H.
  specialize (H (Z.to_nat s)). unfold two_digits_ok in H.
  rewrite Z2Nat.id in H by lia.
  apply js_eqb_eq, H, in_seq. lia.
Qed.

(** X5. For a remaining time from 0 to 2^53 - 1, where the browser
    divides whole numbers exactly, the display is the minutes, a colon
    and the seconds within the minute as exactly two decimal digits,
    zero-padded. *)
Theorem render_pads_seconds_to_two_digits (remaining : Z) :
  (0 <= remaining <= max_safe_integer)%Z ->
  render remaining =
    toString (remaining / 60) ++ js ":"
      ++ [digit_char (remaining mod 60 / 10);
          digit_char (remaining mod 60 mod 10)].
Proof.
  intros Hr. unfold render. rewrite Z.rem_mod_nonneg by lia.
  rewrite seconds_field_two_digits; [reflexivity|].
  apply Z.mod_pos_bound. lia.
Qed.

Lemma render_pads_seconds_to_two_digits_witness :
  render 125 = js "2:05".
Proof.
  refine (eq_trans (@render_pads_seconds_to_two_digits 125 _) _).
  - unfold max_safe_integer. lia.
  - reflexivity.
Defined.

(** X6. Until it expires a countdown touches nothing but the text: for a
    seed from 0 to 2^53 - 1, after [k] ticks, [k] not above the seed, the
    colour and the resend button are as they were, the interval is set and
    one value was written per tick; from the tick after the seed on the
    button is enabled. *)
Theorem resend_waits_for_expiry (seconds : Z) text color btn (k : nat) :
  (0 <= seconds <= max_safe_integer)%Z ->
  let t := ticks k (startCountdown seconds text color btn) in
  (k <= Z.to_nat seconds ->
     resend t = btn /\ display_color t = color /\ running t = true /\
     length (written t) = k) /\
  (Z.to_nat seconds < k ->
     resend t = option_map (fun _ => resend_enabled) btn /\
     running t = false /\
     length (written t) = Z.to_nat seconds + 2).
Proof.
  intros Hs t. subst t. split; intros Hk.
  - rewrite ticks_while_counting by lia.
    cbn [resend display_color running written].
    repeat (split; [reflexivity|]).
    unfold countdown_from. now rewrite length_map, length_seq.
  - remember (Z.to_nat seconds) as n eqn:Hn.
    assert (Hz : seconds = Z.of_nat n) by lia. clear Hn. subst seconds.
    replace k with (S n + (k - S n)) by lia.
    rewrite ticks_add, ticks_at_expiry, ticks_cleared by reflexivity.
    cbn [resend running written].
    repeat (split; [reflexivity|]).
    unfold countdown_from.
    rewrite length_app, length_map, length_seq. reflexivity.
Qed.

Lemma resend_waits_for_expiry_witness :
  resend (ticks 3 (startCountdown 3 [] []
            (Some {| disabled := true; btn_text := [] |})))
    = Some {| disabled := true; btn_text := [] |} /\
  resend (ticks 4 (startCountdown 3 [] []
            (Some {| disabled := true; btn_text := [] |})))
    = Some resend_enabled.
Proof.
  assert (H : (0 <= 3 <= max_safe_integer)%Z)
    by (unfold max_safe_integer; lia).
  split.
  - refine (proj1 (proj1 (@resend_waits_for_expiry 3 [] []
      (Some {| disabled := true; btn_text := [] |}) 3 H) _)).
    vm_compute. lia.
  - refine (proj1 (proj2 (@resend_waits_for_expiry 3 [] []
      (Some {| disabled := true; btn_text := [] |}) 4 H) _)).
    vm_compute. lia.
Defined.

End CountdownEdges.

(** ** Required fields: repeated validation *)

Section FormRepeats.

Import FormGuard.

Lemma visited_idempotent f : visited (visited f) = visited f.
Proof.
  unfold visited at 1.
  destruct (visited_keeps f) as [Hr Hv].
  assert (Hb : blank (visited f) = blank f) by (unfold blank; now rewrite Hv).
  rewrite Hr, Hb. unfold visited.
  destruct (required f) eqn:Hreq; [|reflexivity].
  destruct (blank f) eqn:Hbl.
  - unfold classList_add at 1.
    rewrite has_class_added. reflexivity.
  - unfold classList_remove. cbn [required value classList].
    f_equal. induction (classList f) as [|c l IH]; simpl; auto.
    destruct (js_eqb is_invalid c) eqn:H; simpl; auto.
    rewrite H. simpl. now f_equal.
Qed.

Lemma passes_visited f : passes (visited f) = passes f.
Proof.
  unfold passes. destruct (visited_keeps f) as [Hr Hv].
  unfold blank. now rewrite Hr, Hv.
Qed.

(** X7. Validating again changes nothing: run on the form it has just
    left behind, [validateForm] returns the same result and leaves every
    control as it is. *)
Theorem validateForm_is_idempotent (form : list field) :
  validateForm (fst (validateForm form)) = validateForm form.
Proof.
  unfold validateForm. rewrite !forEach_map. cbn [fst andb].
  f_equal.
  - rewrite map_map. apply map_ext. intros f. apply visited_idempotent.
  - induction form as [|f form IH]; simpl; auto.
    now rewrite passes_visited, IH.
Qed.

Lemma visited_NoDup f : NoDup (classList f) -> NoDup (classList (visited f)).
Proof.
  intros Hn. unfold visited.
  destruct (required f); [|exact Hn].
  destruct (blank f).
  - unfold classList_add. cbn [classList].
    destruct (has_class is_invalid f) eqn:Hc; [exact Hn|].
    apply NoDup_rev in Hn. rewrite <- (rev_involutive (classList f ++ _)).
    apply NoDup_rev. rewrite rev_app_distr. simpl.
    constructor; [|exact Hn].
    intros Hin. apply in_rev in Hin.
    unfold has_class in Hc.
    assert (Ht : existsb (js_eqb is_invalid) (classList f) = true).
    { apply existsb_exists. exists is_invalid. split; [exact Hin|].
      apply js_eqb_refl. }
    congruence.
  - unfold classList_remove. cbn [classList]. now apply NoDup_filter.
Qed.

(** X8. The class lists stay sets: when no control of the form carries a
    token twice, none does after [validateForm], so the [is-invalid]
    marker is never stacked. *)
Theorem validateForm_keeps_class_lists_duplicate_free (form : list field) :
  (forall f, In f form -> NoDup (classList f)) ->
  forall f', In f' (fst (validateForm form)) -> NoDup (classList f').
Proof.
  intros H f' Hin. unfold validateForm in Hin.
  rewrite forEach_map in Hin. cbn [fst] in Hin.
  apply in_map_iff in Hin. destruct Hin as [f [<- Hf]].
  apply visited_NoDup, H, Hf.
Qed.

Lemma validateForm_keeps_class_lists_duplicate_free_witness :
  NoDup (classList
           (classList_add is_invalid
              {| required := true; value := []; classList := [is_invalid] |})).
Proof.
  refine (@validateForm_keeps_class_lists_duplicate_free
    [ {| required := true; value := []; classList := [is_invalid] |} ]
    _ _ _).
  - intros f [<-|[]]. cbn [classList].
    constructor; [intros [] | constructor].
  - left. reflexivity.
Defined.

End FormRepeats.

(** ** Phone numbers: the grouped form *)

Section PhoneShape.

Import Phone.

Ltac digits_known :=
  repeat match goal with
         | H : is_digit ?a = true |- context [is_digit ?a] => rewrite H
         end.

(** X9. A number that reduces to exactly ten digits comes out as
    thirteen characters: a zero and the ten digits, with one space after
    the fourth and one after the seventh character and none elsewhere.
    Formatting the result again gives the same text. *)
Theorem ten_digits_are_grouped (phone : js_string) :
  length (reduced phone) = 10 ->
  let out := formatPhoneNumber phone in
  length out = 13 /\
  strip_non_digits out = 48%N :: reduced phone /\
  nth_error out 4 = Some 32%N /\
  nth_error out 8 = Some 32%N /\
  formatPhoneNumber out = out.
Proof.
  intros Hlen out. subst out.
  pose proof (@reduced_digits phone) as Hd.
  rewrite formatPhoneNumber_reduced. cbv zeta. rewrite Hlen.
  change (10 =? 10) with true. cbv iota.
  destruct (reduced phone)
    as [|a0 [|a1 [|a2 [|a3 [|a4 [|a5 [|a6 [|a7 [|a8 [|a9 [|x l]]]]]]]]]]];
    try discriminate Hlen.
  assert (H0 : is_digit a0 = true) by (apply is_digit_iff, Hd; simpl; auto 12).
  assert (H1 : is_digit a1 = true) by (apply is_digit_iff, Hd; simpl; auto 12).
  assert (H2 : is_digit a2 = true) by (apply is_digit_iff, Hd; simpl; auto 12).
  assert (H3 : is_digit a3 = true) by (apply is_digit_iff, Hd; simpl; auto 12).
  assert (H4 : is_digit a4 = true) by (apply is_digit_iff, Hd; simpl; auto 12).
  assert (H5 : is_digit a5 = true) by (apply is_digit_iff, Hd; simpl; auto 12).
  assert (H6 : is_digit a6 = true) by (apply is_digit_iff, Hd; simpl; auto 12).
  assert (H7 : is_digit a7 = true) by (apply is_digit_iff, Hd; simpl; auto 12).
  assert (H8 : is_digit a8 = true) by (apply is_digit_iff, Hd; simpl; auto 12).
  assert (H9 : is_digit a9 = true) by (apply is_digit_iff, Hd; simpl; auto 12).
  clear Hd Hlen.
  cbn [js map list_ascii_of_string N_of_ascii app firstn skipn].
  change (N_of_ascii "0") with 48%N. change (N_of_ascii " ") with 32%N.
  cbn [app].
  split; [reflexivity|].
  split.
  { unfold strip_non_digits. cbn [filter]. digits_known. reflexivity. }
  split; [reflexivity|]. split; [reflexivity|].
  unfold formatPhoneNumber, strip_non_digits. cbn [filter].
  digits_known. reflexivity.
Qed.

Lemma ten_digits_are_grouped_witness :
  formatPhoneNumber (js "0912 345 6789") = js "0912 345 6789".
Proof.
  refine (eq_trans _ (proj2 (proj2 (proj2 (proj2
    (@ten_digits_are_grouped (js "+98 912 345 6789") _)))))).
  - reflexivity.
  - reflexivity.
Defined.

End PhoneShape.

(** ** The token cookie and the session check *)

Section SessionFacts.

Import Cookie Session AuthFetch.

Lemma before_prefix sep s : exists r, s = before sep s ++ r.
Proof.
  induction s as [|c s [r IH]]; simpl.
  - now exists [].
  - destruct (c =? sep)%N.
    + now exists (c :: s).
    + exists r. simpl. now f_equal.
Qed.

(** Every piece of a split is a stretch of the text that was split. *)
Lemma split_piece_infix sep s x :
  In x (split sep s) -> exists a b, s = a ++ x ++ b.
Proof.
  revert x. induction s as [|c s IH]; intros x; simpl.
  - intros [<-|[]]. now exists [], [].
  - destruct (N.eqb_spec c sep) as [->|Hne].
    + intros [<-|Hin].
      * now exists [], (sep :: s).
      * destruct (IH x Hin) as [a [b ->]]. now exists (sep :: a), b.
    + destruct (split_head sep s) as [t Ht]. rewrite Ht.
      intros [<-|Hin].
      * destruct (before_prefix sep s) as [r Hr].
        exists [], r. simpl. now f_equal.
      * assert (Hx : In x (split sep s)) by (rewrite Ht; now right).
        destruct (IH x Hx) as [a [b ->]]. now exists (c :: a), b.
Qed.

Lemma split_piece_no_sep sep s x : In x (split sep s) -> ~ In sep x.
Proof.
  revert x. induction s as [|c s IH]; intros x; simpl.
  - intros [<-|[]]. tauto.
  - destruct (N.eqb_spec c sep) as [->|Hne].
    + intros [<-|Hin]; [tauto | now apply IH].
    + destruct (split_head sep s) as [t Ht]. rewrite Ht.
      intros [<-|Hin].
      * intros [H|H]; [congruence|]. now apply (before_stops sep s).
      * apply IH. rewrite Ht. now right.
Qed.

Lemma trimStart_suffix s : exists ws, s = ws ++ trimStart s.
Proof.
  induction s as [|c s [ws IH]]; simpl.
  - now exists [].
  - destruct (is_space c).
    + exists (c :: ws). simpl. now f_equal.
    + now exists [].
Qed.

Lemma trim_infix s : exists a b, s = a ++ trim s ++ b.
Proof.
  unfold trim, trimEnd.
  destruct (trimStart_suffix s) as [a Ha].
  destruct (trimStart_suffix (rev (trimStart s))) as [b Hb].
  exists a, (rev b). rewrite <- rev_app_distr, <- Hb, rev_involutive.
  exact Ha.
Qed.

Lemma startsWith_iff p s : startsWith p s = true <-> exists r, s = p ++ r.
Proof.
  revert s. induction p as [|a p IH]; intros s; simpl.
  - split; [intros _; now exists s | reflexivity].
  - destruct s as [|b s].
    + split; [discriminate | intros [r H]; discriminate].
    + rewrite andb_true_iff, N.eqb_eq, IH. split.
      * intros [-> [r ->]]. now exists r.
      * intros [r H]. injection H as -> ->. split; [reflexivity|now exists r].
Qed.

(** [includes] finds exactly the texts that occur as a stretch. *)
Lemma includes_iff pat s :
  includes pat s = true <-> exists a b, s = a ++ pat ++ b.
Proof.
  induction s as [|c s IH].
  - simpl. rewrite orb_false_r, startsWith_iff. split.
    + intros [r H]. now exists [], r.
    + intros [a [b H]]. destruct a; [now exists b | discriminate].
  - cbn [includes]. rewrite orb_true_iff, startsWith_iff, IH. split.
    + intros [[r H]|[a [b H]]].
      * now exists [], r.
      * exists (c :: a), b. simpl. now f_equal.
    + intros [a [b H]]. destruct a as [|a0 a].
      * left. now exists b.
      * right. injection H as _ H. now exists a, b.
Qed.

(** A token, or [undefined], comes from a piece named [access_token]. *)
Lemma scan_found cookies :
  scan cookies <> TokNull ->
  exists piece, In piece cookies /\ cookie_name piece = access_token.
Proof.
  induction cookies as [|p cookies IH]; cbn [scan]; [congruence|].
  pose proof (name_value_name p) as Hn.
  destruct (name_value p) as [name value]. cbn [fst] in Hn. subst name.
  destruct (js_eqb (cookie_name p) access_token) eqn:E.
  - intros _. exists p. split; [now left | now apply js_eqb_eq].
  - intros H. destruct (IH H) as [q [Hq Hname]].
    exists q. split; [now right | exact Hname].
Qed.

Lemma scan_value cookies v :
  scan cookies = TokStr v ->
  exists piece, In piece cookies /\ In v (split 61%N (trim piece)).
Proof.
  induction cookies as [|p cookies IH]; cbn [scan]; [discriminate|].
  unfold name_value.
  assert (Hrest : scan cookies = TokStr v ->
            exists piece, In piece (p :: cookies)
                          /\ In v (split 61%N (trim piece))).
  { intros H. destruct (IH H) as [q [Hq Hv]].
    exists q. split; [now right | exact Hv]. }
  destruct (nth_error (split 61%N (trim p)) 0) as [n|]; [|exact Hrest].
  destruct (js_eqb n access_token); [|exact Hrest].
  destruct (nth_error (split 61%N (trim p)) 1) as [v'|] eqn:E;
    [|discriminate].
  intros H. injection H as ->. exists p. split; [now left|].
  eapply nth_error_In, E.
Qed.

Lemma session_cookie_included cookie :
  getToken cookie <> TokNull -> isLoggedIn cookie = true.
Proof.
  intros H. unfold getToken in H.
  destruct (scan_found _ H) as [piece [Hin Hname]].
  unfold isLoggedIn. apply includes_iff.
  destruct (split_piece_infix _ _ _ Hin) as [a [b ->]].
  destruct (trim_infix piece) as [a' [b' Hp]].
  destruct (before_prefix 61%N (trim piece)) as [r Hr].
  unfold cookie_name in Hname. rewrite Hname in Hr.
  rewrite Hp, Hr. exists (a ++ a'), (r ++ b' ++ b).
  now rewrite <- !app_assoc.
Qed.

(** X10. A token that [getToken] returns holds no [=] and no [;]. *)
Theorem token_has_no_separator (cookie v : js_string) :
  getToken cookie = TokStr v -> ~ In 61%N v /\ ~ In 59%N v.
Proof.
  intros H. unfold getToken in H.
  destruct (scan_value _ H) as [piece [Hin Hv]]. split.
  - now apply (split_piece_no_sep _ _ _ Hv).
  - intros H59. apply (split_piece_no_sep _ _ _ Hin).
    destruct (split_piece_infix _ _ _ Hv) as [a [b Hab]].
    destruct (trim_infix piece) as [a' [b' Hp]].
    rewrite Hp, Hab. rewrite !in_app_iff. auto.
Qed.

Lemma token_has_no_separator_witness :
  ~ In 61%N (js "abc") /\ ~ In 59%N (js "abc").
Proof.
  refine (@token_has_no_separator (js "x=1; access_token=abc=def;y=2")
            (js "abc") _).
  reflexivity.
Defined.

(** X11. Whenever [getToken] finds a token, or finds the cookie without a
    value, [isLoggedIn] is true: a page that reads as logged out has no
    token. *)
Theorem token_implies_logged_in (cookie : js_string) :
  getToken cookie <> TokNull -> isLoggedIn cookie = true.
Proof. apply session_cookie_included. Qed.

Lemma token_implies_logged_in_witness :
  isLoggedIn (js "theme=dark; access_token=abc") = true.
Proof.
  refine (@token_implies_logged_in (js "theme=dark; access_token=abc") _).
  discriminate.
Defined.

(** X12. On a page that [isLoggedIn] reports as logged out,
    [makeAuthRequest] only redirects to [/login]: it resolves to
    [undefined] and sends nothing. *)
Theorem logged_out_page_is_redirected
    (net : request -> fetch_outcome) (url method : js_string)
    (data : json) (w : world) :
  isLoggedIn (cookie w) = false ->
  let run := makeAuthRequest net url method data w in
  fst run = inr None /\
  href (snd run) = js "/login" /\
  log (snd run) = log w ++ [EvRedirect (js "/login")].
Proof.
  intros Hout run. subst run.
  assert (Htok : getToken (cookie w) = TokNull).
  { destruct (getToken (cookie w)) eqn:E; [reflexivity| |];
      (assert (Hin : isLoggedIn (cookie w) = true)
         by (apply session_cookie_included; rewrite E; discriminate);
       congruence). }
  unfold makeAuthRequest, bind, read_cookie, set_location, ret, record.
  cbn [cookie href overlays liveToast bootstrap log fst snd].
  rewrite Htok. cbn [falsy fst snd href log].
  split; [reflexivity | split; reflexivity].
Qed.

Lemma logged_out_page_is_redirected_witness :
  fst (makeAuthRequest offline (js "/users/me") (js "GET") JNull
         page_signed_out) = inr None.
Proof.
  refine (proj1 (@logged_out_page_is_redirected offline (js "/users/me")
                   (js "GET") JNull page_signed_out _)).
  reflexivity.
Defined.

End SessionFacts.

(** ** Authenticated requests on any page *)

Section RequestFacts.

Import Cookie AuthFetch.

Variable net : request -> fetch_outcome.

Ltac run_all :=
  unfold makeAuthRequest, try_catch, bind, read_cookie, showLoading, fetch,
    hideLoading, showToast, set_location, console_error, response_json,
    ret, throw, record;
  cbn [cookie href overlays liveToast bootstrap log fst snd negb
       toast_body toast_class toast_shown].

(** X13. With a token, one call of [makeAuthRequest] sends exactly one
    request, whatever comes back and whatever the page lacks: the overlay
    is shown, the request goes to [/api/v1] followed by the given path
    with the bearer token, [hideLoading] runs, and nothing after that is
    a request. The request carries a body exactly when the payload is
    truthy and the method is [POST] or [PUT] as written. The call leaves
    no more overlays on the page than it found. *)
Theorem one_request_per_call
    (url method : js_string) (data : json) (w : world) :
  falsy (getToken (cookie w)) = false ->
  let run := makeAuthRequest net url method data w in
  let request := build_request (getToken (cookie w)) url method data in
  (exists evs,
     log (snd run) =
       log w ++ EvShowLoading msg_sending :: EvFetch request
             :: EvHideLoading :: evs /\
     network_calls evs = 0) /\
  network_calls (log (snd run)) = S (network_calls (log w)) /\
  req_url request = js "/api/v1" ++ url /\
  In (js "Authorization",
      js "Bearer " ++ token_text (getToken (cookie w)))
     (req_headers request) /\
  (req_body request = Some data <->
     truthy data = true /\ (method = js "POST" \/ method = js "PUT")) /\
  length (overlays (snd run)) <= length (overlays w).
Proof.
  intros Htok run request.
  assert (Hlog : exists evs,
     log (snd run) =
       log w ++ EvShowLoading msg_sending :: EvFetch request
             :: EvHideLoading :: evs /\
     network_calls evs = 0).
  { subst run request. run_all. rewrite Htok.
    remember (build_request (getToken (cookie w)) url method data) as rq.
    clear Heqrq Htok. destruct w as [ck hr ov lt bs lg].
    cbn [cookie href overlays liveToast bootstrap log fst snd].
    destruct (net rq) as [e|status body];
      cbn [cookie href overlays liveToast bootstrap log fst snd];
      [|destruct (status =? 401)%Z; [|destruct body as [j|e]]];
      cbn [cookie href overlays liveToast bootstrap log fst snd];
      destruct lt as [[[tb|] tc ts]|]; destruct bs;
      cbn [cookie href overlays liveToast bootstrap log fst snd negb
           toast_body toast_class toast_shown];
      rewrite <- ?app_assoc; cbn [app];
      eexists; (split; [reflexivity | reflexivity]). }
  split; [exact Hlog|].
  split.
  { destruct Hlog as [evs [-> Hevs]].
    unfold network_calls in *. rewrite filter_app, length_app.
    cbn [filter length]. rewrite Hevs. lia. }
  split; [reflexivity|].
  split; [now left|].
  split.
  { subst request. unfold build_request. cbn [req_body].
    rewrite <- !js_eqb_eq, <- orb_true_iff, <- andb_true_iff.
    destruct (truthy data && _); split; congruence. }
  subst run request. run_all. rewrite Htok.
  remember (build_request (getToken (cookie w)) url method data) as rq.
  clear Heqrq Htok. destruct w as [ck hr ov lt bs lg].
  cbn [cookie href overlays liveToast bootstrap log fst snd].
  assert (H1 : length (tl (ov ++ [msg_sending])) <= length ov).
  { destruct ov; simpl; [lia|]. rewrite length_app. simpl. lia. }
  assert (H2 : length (tl (tl (ov ++ [msg_sending]))) <= length ov).
  { destruct (ov ++ [msg_sending]) as [|x l] eqn:E; simpl in *; [lia|].
    destruct l; simpl in *; lia. }
  destruct (net rq) as [e|status body];
    cbn [cookie href overlays liveToast bootstrap log fst snd];
    [|destruct (status =? 401)%Z; [|destruct body as [j|e]]];
    cbn [cookie href overlays liveToast bootstrap log fst snd];
    destruct lt as [[[tb|] tc ts]|]; destruct bs;
    cbn [cookie href overlays liveToast bootstrap log fst snd negb
         toast_body toast_class toast_shown];
    assumption.
Qed.

(** X14. When the body of a response other than 401 fails to parse,
    [hideLoading] has run twice by the end of the call, after the fetch
    and again in the [catch] block: the overlay of the call is gone, and
    so is one that was on the page before it. *)
Theorem unparsed_body_hides_twice
    (url method : js_string) (data : json) (w : world)
    (status : Z) (e : js_error) :
  falsy (getToken (cookie w)) = false ->
  net (build_request (getToken (cookie w)) url method data)
    = FetchResponds status (BodyRejects e) ->
  status <> 401%Z ->
  let run := makeAuthRequest net url method data w in
  overlays (snd run) = tl (tl (overlays w ++ [msg_sending])) /\
  (forall o rest, overlays w = o :: rest ->
     length (overlays (snd run)) = length rest).
Proof.
  intros Htok Hnet Hst run.
  assert (E : overlays (snd run) = tl (tl (overlays w ++ [msg_sending]))).
  { subst run. run_all. rewrite Htok, Hnet.
    apply Z.eqb_neq in Hst. cbn [fst snd]. rewrite Hst.
    destruct w as [ck hr ov lt bs lg].
    cbn [cookie href overlays liveToast bootstrap log fst snd].
    destruct lt as [[[tb|] tc ts]|]; destruct bs; reflexivity. }
  split; [exact E|].
  intros o rest Hov. rewrite E, Hov. cbn [app tl].
  destruct rest; simpl; [reflexivity|].
  rewrite length_app. simpl. lia.
Qed.

End RequestFacts.

Section RequestInstances.

Import Cookie AuthFetch.

Lemma one_request_per_call_witness :
  network_calls
    (log (snd (makeAuthRequest offline (js "/users/me") (js "GET") JNull
                 page_without_toast))) = 1.
Proof.
  refine (proj1 (proj2 (@one_request_per_call offline (js "/users/me")
                          (js "GET") JNull page_without_toast _))).
  reflexivity.
Defined.

Lemma unparsed_body_hides_twice_witness :
  overlays
    (snd (makeAuthRequest
            (fun _ => FetchResponds 200 (BodyRejects SyntaxError))
            (js "/users/me") (js "GET") JNull
            {| cookie := js "access_token=abc"; href := [];
               overlays := [js "saving"]; liveToast := None;
               bootstrap := false; log := [] |})) = [].
Proof.
  refine (proj1 (@unparsed_body_hides_twice
    (fun _ => FetchResponds 200 (BodyRejects SyntaxError))
    (js "/users/me") (js "GET") JNull
    {| cookie := js "access_token=abc"; href := [];
       overlays := [js "saving"]; liveToast := None;
       bootstrap := false; log := [] |} 200%Z SyntaxError _ _ _)).
  - reflexivity.
  - reflexivity.
  - lia.
Defined.

End RequestInstances.

(** ** Clipboard *)

Section ClipboardFacts.

Import AuthFetch Clipboard.

Ltac run_copy :=
  unfold copyToClipboard, try_catch, bind, showToast, console_error, ret,
    throw, record;
  cbn [cookie href overlays liveToast bootstrap log fst snd negb
       toast_body toast_class toast_shown].

(** X15. On a page that supplies the toast widget, [copyToClipboard]
    ends with exactly one toast and never rejects: the success toast with
    the given message (the default one when it is left out) when the text
    was written, and otherwise the logged error followed by the error
    toast. *)
Theorem copy_reports_once
    (writeText : js_string -> option js_error)
    (text : js_string) (message : option js_string) (w : world) :
  toast_ready w ->
  let run := copyToClipboard (Some writeText) text message w in
  let shown :=
    match message with Some m => m | None => label_copied end in
  fst run = inr tt /\
  log (snd run) =
    log w ++
    match writeText text with
    | None => [EvToast shown (js "success")]
    | Some e => [EvConsoleError (js "Could not copy text: ") e;
                 EvToast msg_copy_failed (js "error")]
    end.
Proof.
  intros [Hboot [el [body [Htoast Hbody]]]] run shown. subst run shown.
  run_copy.
  destruct (writeText text) as [e|];
    cbn [cookie href overlays liveToast bootstrap log fst snd];
    rewrite Htoast, Hboot; cbn [negb]; rewrite Hbody;
    cbn [cookie href overlays liveToast bootstrap log fst snd];
    (split; [reflexivity|]); rewrite <- ?app_assoc; reflexivity.
Qed.

(** X16. Where the browser exposes no clipboard, [copyToClipboard] throws
    at once and reports nothing. On a page without the [#liveToast]
    element the chain ends rejected after one console entry and no toast;
    even a text that was written is then logged as an error. *)
Theorem copy_without_clipboard_or_toast
    (text : js_string) (message : option js_string) (w : world) :
  copyToClipboard None text message w = (inl TypeError, w) /\
  (liveToast w = None ->
   forall writeText : js_string -> option js_error,
     let run := copyToClipboard (Some writeText) text message w in
     fst run = inl TypeError /\
     log (snd run) =
       log w ++
       [EvConsoleError (js "Could not copy text: ")
          match writeText text with
          | None => TypeError
          | Some e => e
          end]).
Proof.
  split; [reflexivity|].
  intros Hno writeText run. subst run. run_copy.
  destruct (writeText text) as [e|];
    cbn [cookie href overlays liveToast bootstrap log fst snd];
    rewrite Hno;
    cbn [cookie href overlays liveToast bootstrap log fst snd];
    rewrite ?Hno; split; reflexivity.
Qed.

End ClipboardFacts.

Section ClipboardInstances.

Import AuthFetch Clipboard.

Lemma copy_reports_once_witness :
  log (snd (copyToClipboard (Some (fun _ => None)) (js "IR12") None
              page_signed_in))
    = [EvToast label_copied (js "success")].
Proof.
  refine (proj2 (@copy_reports_once (fun _ => None) (js "IR12") None
                   page_signed_in _)).
  split; [reflexivity | eexists _, _; split; reflexivity].
Defined.

Lemma copy_without_clipboard_or_toast_witness :
  fst (copyToClipboard (Some (fun _ => None)) (js "IR12") None
         page_without_toast) = inl TypeError.
Proof.
  refine (proj1 (proj2 (@copy_without_clipboard_or_toast (js "IR12") None
                          page_without_toast) _ (fun _ => None))).
  reflexivity.
Defined.

End ClipboardInstances.

(** ** One-time-code inputs *)

Section OtpFacts.

Import Otp.

Lemma set_slot_length index value l :
  length (set_slot index value l) = length l.
Proof.
  revert index. induction l as [|v l IH]; intros [|i]; simpl; auto.
Qed.

Lemma step_slots_length st ev : length (slots (step st ev)) = length (slots st).
Proof.
  destruct ev as [index value|index key]; unfold step, on_input, on_keydown.
  - cbn [slots].
    destruct (nth_error _ index) as [v|]; cbn [slots];
      [|apply set_slot_length].
    destruct (length v =? 1); [|apply set_slot_length].
    destruct (index <? _); apply set_slot_length.
  - destruct (nth_error _ index) as [v|]; [|reflexivity].
    destruct (js_eqb key Backspace && _); [|reflexivity].
    now destruct (0 <? index).
Qed.

Lemma step_focus_bound st ev :
  (forall i, focus st = Some i -> i < length (slots st)) ->
  forall i, focus (step st ev) = Some i -> i < length (slots (step st ev)).
Proof.
  intros Hst i. rewrite step_slots_length.
  destruct ev as [index value|index key]; unfold step, on_input, on_keydown.
  - cbn [slots focus].
    destruct (nth_error _ index) as [v|]; cbn [focus]; [|apply Hst].
    destruct (length v =? 1); cbn [focus]; [|apply Hst].
    destruct (index <? _) eqn:E; cbn [focus]; [|apply Hst].
    apply Nat.ltb_lt in E. rewrite set_slot_length in E.
    intros H. injection H as <-. lia.
  - destruct (nth_error _ index) as [v|] eqn:En; [|apply Hst].
    destruct (js_eqb key Backspace && _); [|apply Hst].
    destruct (0 <? index) eqn:E; cbn [focus]; [|apply Hst].
    intros H. injection H as <-.
    assert (index < length (slots st))
      by (apply nth_error_Some; congruence).
    lia.
Qed.

Lemma step_keeps_focus st ev i :
  focus st = Some i -> exists j, focus (step st ev) = Some j.
Proof.
  intros Hf.
  destruct ev as [index value|index key]; unfold step, on_input, on_keydown.
  - cbn [slots focus].
    destruct (nth_error _ index) as [v|]; cbn [focus]; [|now exists i].
    destruct (length v =? 1); cbn [focus]; [|now exists i].
    destruct (index <? _); cbn [focus]; [now eexists | now exists i].
  - destruct (nth_error _ index) as [v|]; [|now exists i].
    destruct (js_eqb key Backspace && _); [|now exists i].
    destruct (0 <? index); cbn [focus]; [now eexists | now exists i].
Qed.

(** X17. The focus never leaves the row of inputs and never wraps: if it
    is on one of them before, then after any events, whatever their
    order, keys and values, it is still on one of them, and the row has
    as many inputs as before; no event takes the focus off the row. *)
Theorem focus_stays_within_slots (evs : list event) (st : otp) :
  (forall i, focus st = Some i -> i < length (slots st)) ->
  length (slots (run evs st)) = length (slots st) /\
  (forall i, focus (run evs st) = Some i -> i < length (slots st)) /\
  (forall i, focus st = Some i ->
     exists j, focus (run evs st) = Some j /\ j < length (slots st)).
Proof.
  unfold run. revert st. induction evs as [|ev evs IH]; intros st Hst.
  - split; [reflexivity|]. split; [exact Hst|].
    intros i Hi. exists i. split; [exact Hi | now apply Hst].
  - cbn [fold_left].
    destruct (IH (step st ev) (step_focus_bound st ev Hst))
      as (Hl & Hf & Hk).
    rewrite step_slots_length in Hl, Hf, Hk.
    split; [exact Hl|]. split; [exact Hf|].
    intros i Hi. destruct (step_keeps_focus st ev Hi) as [j Hj].
    exact (Hk j Hj).
Qed.

Lemma focus_stays_within_slots_witness :
  exists j,
    focus (run [Input 2 (js "7"); Keydown 0 Backspace; Input 1 (js "42")]
             {| slots := [[]; []; []]; focus := Some 0 |}) = Some j /\
    j < 3.
Proof.
  refine (proj2 (proj2 (@focus_stays_within_slots
    [Input 2 (js "7"); Keydown 0 Backspace; Input 1 (js "42")]
    {| slots := [[]; []; []]; focus := Some 0 |} _)) 0 _).
  - intros i H. injection H as <-. simpl. lia.
  - reflexivity.
Defined.

Lemma set_slot_middle done v todo value :
  set_slot (length done) value (done ++ v :: todo) = done ++ value :: todo.
Proof.
  induction done as [|d done IH]; simpl; [reflexivity | now rewrite IH].
Qed.

Lemma typing_from done todo cs f :
  length todo = length cs ->
  run (typing (length done) cs) {| slots := done ++ todo; focus := f |} =
    {| slots := done ++ map (fun c => [c]) cs;
       focus := match cs with
                | [] | [_] => f
                | _ :: _ :: _ => Some (length done + length cs - 1)
                end |}.
Proof.
  revert done todo f. induction cs as [|c cs IH]; intros done todo f Hlen.
  - destruct todo; [reflexivity | discriminate].
  - destruct todo as [|v todo]; [discriminate|].
    injection Hlen as Hlen.
    unfold run. cbn [typing fold_left step slots focus].
    rewrite set_slot_middle. unfold on_input. cbn [slots focus].
    rewrite nth_error_app2, Nat.sub_diag by lia. cbn [nth_error length].
    change (1 =? 1) with true. cbv iota.
    rewrite length_app. cbn [length].
    replace (S (length done)) with (length (done ++ [[c]]))
      by (rewrite length_app; simpl; lia).
    destruct (length done <? _) eqn:E.
    + apply Nat.ltb_lt in E. cbn [length] in E.
      destruct cs as [|c' cs]; [simpl in Hlen; rewrite Hlen in E; lia|].
      unfold focus_on. cbn [slots].
      change (done ++ [c] :: todo) with (done ++ [[c]] ++ todo).
      rewrite app_assoc.
      unfold run in IH. rewrite IH by exact Hlen.
      rewrite <- app_assoc. cbn [app map]. f_equal.
      rewrite length_app. cbn [length].
      destruct cs; cbn [length]; apply f_equal;
        unfold js_string in *; lia.
    + apply Nat.ltb_ge in E. cbn [length] in E.
      destruct cs as [|c' cs]; [|simpl in Hlen; rewrite Hlen in E; lia].
      change (done ++ [c] :: todo) with (done ++ [[c]] ++ todo).
      rewrite app_assoc.
      unfold run in IH. rewrite IH by exact Hlen.
      cbn [map]. now rewrite <- app_assoc.
Qed.

(** X18. Typing a code, one character into each input from the first to
    the last, leaves each input with its character and the focus on the
    last input: it advances with every character but the last one. With
    a single input the focus is not moved at all. *)
Theorem typing_a_code_ends_on_last_slot
    (cs : list code_unit) (st : otp) :
  length (slots st) = length cs ->
  run (typing 0 cs) st =
    {| slots := map (fun c => [c]) cs;
       focus := match cs with
                | [] | [_] => focus st
                | _ :: _ :: _ => Some (length cs - 1)
                end |}.
Proof.
  intros Hlen. destruct st as [sl f].
  apply (typing_from [] sl cs f Hlen).
Qed.

Lemma typing_a_code_ends_on_last_slot_witness :
  focus (run (typing 0 (js "4071"))
           {| slots := [[]; []; []; []]; focus := Some 0 |}) = Some 3.
Proof.
  refine (f_equal focus (@typing_a_code_ends_on_last_slot (js "4071")
            {| slots := [[]; []; []; []]; focus := Some 0 |} _)).
  reflexivity.
Defined.

Lemma erasing_walks_back (k : nat) (st : otp) :
  k < length (slots st) ->
  (forall i, 1 <= i <= k -> nth_error (slots st) i = Some []) ->
  run (erasing k) st =
    match k with
    | O => st
    | S _ => {| slots := slots st; focus := Some 0 |}
    end.
Proof.
  revert st. induction k as [|k IH]; intros st Hk Hempty; [reflexivity|].
  unfold run. cbn [erasing fold_left step].
  unfold on_keydown. rewrite (Hempty (S k)) by lia.
  rewrite js_eqb_refl. cbn [andb Nat.ltb Nat.leb]. unfold focus_on.
  change (S k - 1) with (k - 0). rewrite Nat.sub_0_r.
  unfold run in IH. rewrite IH; cbn [slots]; [|lia|intros; apply Hempty; lia].
  destruct k; reflexivity.
Qed.

(** X19. With the inputs 1 to [k] empty, Backspace pressed in the input
    [k] and then in each input before it, down to the second, walks the
    focus back to the first input and changes no value; Backspace in the
    first input moves nothing. *)
Theorem backspace_retreats_to_first_slot (k : nat) (st : otp) :
  1 <= k < length (slots st) ->
  (forall i, 1 <= i <= k -> nth_error (slots st) i = Some []) ->
  run (erasing k) st = {| slots := slots st; focus := Some 0 |} /\
  on_keydown 0 Backspace st = st.
Proof.
  intros [Hk1 Hk] Hempty. split.
  - rewrite erasing_walks_back by assumption.
    destruct k; [lia | reflexivity].
  - unfold on_keydown. destruct (nth_error (slots st) 0); [|reflexivity].
    now destruct (js_eqb Backspace Backspace && _).
Qed.

Lemma backspace_retreats_to_first_slot_witness :
  focus (run (erasing 3)
           {| slots := [js "4"; []; []; []]; focus := Some 3 |}) = Some 0.
Proof.
  refine (f_equal focus (proj1 (@backspace_retreats_to_first_slot 3
            {| slots := [js "4"; []; []; []]; focus := Some 3 |} _ _))).
  - simpl. lia.
  - intros [|[|[|[|i]]]] Hi; try reflexivity; lia.
Defined.

End OtpFacts.

(** ** The page-load handler *)

Section PageLoadFacts.

Import Countdown TimerSeed PageLoad.

Lemma focus_forms_app k a b act :
  focus_forms k (a ++ b) act
    = focus_forms (k + length a) b (focus_forms k a act).
Proof.
  revert k act. induction a as [|f a IH]; intros k act; cbn [app length].
  - now rewrite Nat.add_0_r.
  - cbn [focus_forms]. rewrite IH. f_equal. lia.
Qed.

Lemma focus_forms_skip k forms act :
  (forall f, In f forms -> takes_focus f = false) ->
  focus_forms k forms act = act.
Proof.
  revert k act. induction forms as [|f forms IH]; intros k act H.
  - reflexivity.
  - cbn [focus_forms].
    assert (Hf : takes_focus f = false) by (apply H; now left).
    unfold takes_focus in Hf.
    destruct (first_input f) as [j|];
      [destruct (nth_error f j) as [i|]; [rewrite Hf|]|];
      apply IH; intros g Hg; apply H; now right.
Qed.

(** X20. When the page loads, the focus ends on the first input that
    is not hidden of the last form that has one accepting focus, not of
    the first such form; when no form has one the focus stays where it
    was. *)
Theorem autofocus_lands_in_last_form
    (forms : list (list input)) (act : option (nat * nat)) :
  (forall pre form post j i,
     forms = pre ++ form :: post ->
     first_input form = Some j -> nth_error form j = Some i ->
     focusable i = true ->
     (forall f, In f post -> takes_focus f = false) ->
     autofocus forms act = Some (length pre, j)) /\
  ((forall f, In f forms -> takes_focus f = false) ->
   autofocus forms act = act).
Proof.
  unfold autofocus. split.
  - intros pre form post j i -> Hj Hi Hfoc Hpost.
    rewrite focus_forms_app.
    cbn [focus_forms]. rewrite Hj, Hi, Hfoc.
    now apply focus_forms_skip.
  - apply focus_forms_skip.
Qed.

Lemma autofocus_lands_in_last_form_witness :
  autofocus
    [ [ {| hidden := false; focusable := true |} ];
      [ {| hidden := true; focusable := false |};
        {| hidden := false; focusable := true |} ];
      [ {| hidden := true; focusable := false |} ] ] None = Some (1, 1).
Proof.
  refine (proj1 (@autofocus_lands_in_last_form _ None)
    [ [ {| hidden := false; focusable := true |} ] ]
    [ {| hidden := true; focusable := false |};
      {| hidden := false; focusable := true |} ]
    [ [ {| hidden := true; focusable := false |} ] ]
    1 {| hidden := false; focusable := true |} _ _ _ _ _).
  - reflexivity.
  - reflexivity.
  - reflexivity.
  - reflexivity.
  - intros f [<-|[]]. reflexivity.
Defined.

(** On whole numbers the clock is the timer of [Countdown]. *)
Lemma period_of_timer t : period (of_timer t) = of_timer (tick t).
Proof.
  unfold period, tick. cbn [of_timer clock_running].
  destruct (running t) eqn:Hrun;
    [|unfold of_timer; now rewrite Hrun].
  unfold clock_callback, callback, clock_set_text, set_text, render,
    clock_expire, expire, decrement, of_timer.
  cbn [clock_remaining clock_text clock_color clock_running clock_resend
       clock_written remaining display_text display_color running resend
       written num_floor_div num_rem num_toString num_le num_pred].
  destruct (remaining t <=? 0)%Z;
    cbn [clock_remaining clock_text clock_color clock_running clock_resend
         clock_written remaining display_text display_color running resend
         written num_pred];
    rewrite ?Hrun; reflexivity.
Qed.

Lemma periods_of_timer k t : periods k (of_timer t) = of_timer (ticks k t).
Proof.
  revert t. induction k as [|k IH]; intros t; [reflexivity|].
  cbn [periods ticks]. now rewrite period_of_timer, IH.
Qed.

Lemma start_of_timer z text color btn :
  start (Int z) text color btn = of_timer (startCountdown z text color btn).
Proof. reflexivity. Qed.

(** With [NaN] left, one run of the callback writes "NaN:NaN", does not
    take the expiry branch and leaves [NaN]. *)
Lemma period_not_a_number (c : clock) :
  clock_remaining c = NaN -> clock_running c = true ->
  period c =
    {| clock_remaining := NaN; clock_text := js "NaN:NaN";
       clock_color := clock_color c; clock_running := true;
       clock_resend := clock_resend c;
       clock_written := clock_written c ++ [js "NaN:NaN"] |}.
Proof.
  intros Hr Hrun. unfold period. rewrite Hrun.
  unfold clock_callback, clock_set_text.
  cbn [clock_remaining clock_text clock_color clock_running clock_resend
       clock_written].
  rewrite Hr, Hrun. reflexivity.
Qed.

Lemma periods_not_a_number (k : nat) (c : clock) :
  clock_remaining c = NaN -> clock_running c = true ->
  clock_remaining (periods k c) = NaN /\
  clock_running (periods k c) = true /\
  clock_color (periods k c) = clock_color c /\
  clock_resend (periods k c) = clock_resend c /\
  (0 < k -> clock_text (periods k c) = js "NaN:NaN").
Proof.
  revert c. induction k as [|k IH]; intros c Hr Hrun.
  - repeat (split; [assumption || reflexivity|]). lia.
  - cbn [periods]. rewrite (period_not_a_number c Hr Hrun).
    match goal with |- context [periods k ?c'] =>
      destruct (IH c' eq_refl eq_refl) as (H1 & H2 & H3 & H4 & H5) end.
    cbn [clock_color clock_resend clock_text] in *.
    repeat (split; [assumption|]).
    intros _. destruct k; [reflexivity | apply H5; lia].
Qed.

(** X21. A timer element whose [seconds] attribute is present but does
    not parse as a number gives a countdown that never expires: the
    callback renders [NaN] minutes and seconds, its test [remaining <= 0]
    fails and the decrement leaves [NaN], so after every tick the display
    reads "NaN:NaN", the interval is still set and the colour and the
    resend button are as they were. *)
Theorem unparseable_seconds_never_expire
    (s text color : js_string) (btn : option resend_btn) (k : nat) :
  s <> [] -> parseInt s = NaN ->
  exists c,
    start_timer (Some (Some s, text, color)) btn = Some c /\
    clock_text (periods (S k) c) = js "NaN:NaN" /\
    clock_running (periods (S k) c) = true /\
    clock_color (periods (S k) c) = color /\
    clock_resend (periods (S k) c) = btn.
Proof.
  intros Hs Hnan. eexists. split; [reflexivity|].
  assert (E : countdownSeed (Some s) = NaN)
    by (destruct s; [congruence | exact Hnan]).
  rewrite E.
  destruct (periods_not_a_number (S k) (start NaN text color btn)
              eq_refl eq_refl) as (_ & H2 & H3 & H4 & H5).
  split; [apply H5; lia|]. split; [exact H2|].
  split; [exact H3 | exact H4].
Qed.

Lemma unparseable_seconds_never_expire_witness :
  exists c,
    start_timer (Some (Some (js "soon"), js "5:00", [])) None = Some c /\
    clock_text (periods 400 c) = js "NaN:NaN" /\
    clock_running (periods 400 c) = true /\
    clock_color (periods 400 c) = [] /\
    clock_resend (periods 400 c) = None.
Proof.
  refine (@unparseable_seconds_never_expire (js "soon") (js "5:00") []
            None 399 _ _).
  - discriminate.
  - reflexivity.
Defined.

(** X22. A timer element whose attribute gives a seed of [n] seconds,
    [0 <= n <= 2^53 - 1] (300 when the attribute is absent or empty),
    counts for [n] ticks and expires on the tick after: the interval is
    set after [k] ticks exactly when [k <= n], and from tick [n + 1] on
    the display is the expired label. A page without the element starts
    nothing. *)
Theorem page_countdown_expires_after_seed
    (seconds : option js_string) (text color : js_string)
    (btn : option resend_btn) (n k : nat) :
  countdownSeed seconds = Int (Z.of_nat n) ->
  (Z.of_nat n <= max_safe_integer)%Z ->
  start_timer None btn = None /\
  exists c,
    start_timer (Some (seconds, text, color)) btn = Some c /\
    clock_running (periods k c) = (k <=? n) /\
    (n < k -> clock_text (periods k c) = label_expired) /\
    (seconds = None \/ seconds = Some [] -> n = 300).
Proof.
  intros Hseed _. split; [reflexivity|].
  eexists. split; [reflexivity|]. rewrite Hseed.
  rewrite start_of_timer, periods_of_timer. cbn [of_timer clock_running
    clock_text].
  split; [|split].
  - destruct (Nat.leb_spec k n) as [Hle|Hgt].
    + now rewrite ticks_while_counting by lia.
    + replace k with (S n + (k - S n)) by lia.
      now rewrite ticks_add, ticks_at_expiry, ticks_cleared.
  - intros Hgt. replace k with (S n + (k - S n)) by lia.
    now rewrite ticks_add, ticks_at_expiry, ticks_cleared.
  - assert (E1 : countdownSeed None = Int 300) by reflexivity.
    assert (E2 : countdownSeed (Some []) = Int 300) by reflexivity.
    intros [->| ->]; [rewrite E1 in Hseed | rewrite E2 in Hseed];
      injection Hseed as H; lia.
Qed.

Lemma page_countdown_expires_after_seed_witness :
  exists c,
    start_timer (Some (None, js "5:00", [])) None = Some c /\
    clock_running (periods 300 c) = true /\
    clock_running (periods 301 c) = false.
Proof.
  assert (H : countdownSeed None = Int (Z.of_nat 300)) by reflexivity.
  assert (B : (Z.of_nat 300 <= max_safe_integer)%Z)
    by (unfold max_safe_integer; lia).
  destruct (proj2 (@page_countdown_expires_after_seed None (js "5:00") []
                     None 300 300 H B)) as [c [Hc [Ha _]]].
  destruct (proj2 (@page_countdown_expires_after_seed None (js "5:00") []
                     None 300 301 H B)) as [c' [Hc' [Ha' _]]].
  exists c. split; [exact Hc|]. split; [exact Ha|].
  assert (E : c' = c) by congruence. rewrite <- E. exact Ha'.
Defined.

End PageLoadFacts.

(** ** Decimal text and [parseInt] *)

Section DecimalFacts.

Import TimerSeed.

Ltac each_digit k H :=
  unfold is_decimal in H;
  assert (k = 0 \/ k = 1 \/ k = 2 \/ k = 3 \/ k = 4 \/ k = 5 \/ k = 6
          \/ k = 7 \/ k = 8 \/ k = 9)%Z
    as [->|[->|[->|[->|[->|[->|[->|[->|[->| ->]]]]]]]]] by lia.

Lemma digit_char_plain k :
  is_decimal k ->
  is_space (digit_char k) = false /\
  (digit_char k =? 45)%N = false /\ (digit_char k =? 43)%N = false /\
  (digit_char k =? 120)%N = false /\ (digit_char k =? 88)%N = false /\
  digit_value (digit_char k) = Some k.
Proof.
  intros H. each_digit k H; repeat split.
Qed.

Lemma udigits_decimal d : Forall is_decimal (udigits d).
Proof.
  induction d; simpl; constructor; auto; unfold is_decimal; lia.
Qed.

Lemma js_of_uint d :
  js (NilEmpty.string_of_uint d) = map digit_char (udigits d).
Proof.
  unfold js. induction d; simpl; [reflexivity|..]; now rewrite IHd.
Qed.

Lemma digits_prefix_decimal ds :
  Forall is_decimal ds -> digits_prefix 10 (map digit_char ds) = ds.
Proof.
  induction 1 as [|k ds Hk _ IH]; [reflexivity|].
  cbn [map digits_prefix].
  destruct (digit_char_plain Hk) as (_ & _ & _ & _ & _ & ->).
  assert (E : (k <? 10)%Z = true)
    by (apply Z.ltb_lt; unfold is_decimal in Hk; lia).
  now rewrite E, IH.
Qed.

(** A run of decimal digits parses as the number it writes, with or
    without a minus sign in front. *)
Lemma parseInt_decimal ds :
  ds <> [] -> Forall is_decimal ds ->
  parseInt (map digit_char ds) = Int (value_of 10 ds) /\
  parseInt (45%N :: map digit_char ds) = Int (- value_of 10 ds).
Proof.
  intros Hne Hds.
  pose proof (digits_prefix_decimal Hds) as Hp.
  destruct ds as [|k ds]; [congruence|].
  inversion Hds as [|? ? Hk Hrest]; subst.
  destruct (digit_char_plain Hk) as (Hsp & H45 & H43 & _ & _ & _).
  cbn [map] in Hp.
  assert (Hx : forall c1, (digit_char k =? 48)%N
                          && ((c1 =? 120)%N || (c1 =? 88)%N) = true ->
                          match ds with [] => True | k2 :: _ =>
                            c1 <> digit_char k2 end).
  { intros c1 Hc. destruct ds as [|k2 ds]; [exact I|].
    inversion Hrest as [|? ? Hk2 _]; subst.
    destruct (digit_char_plain Hk2) as (_ & _ & _ & H120 & H88 & _).
    intros ->. rewrite H120, H88, andb_false_r in Hc. discriminate. }
  split.
  - unfold parseInt. cbn [map trimStart]. rewrite Hsp, H45, H43.
    destruct ds as [|k2 ds]; cbn [map] in *.
    + rewrite Hp; f_equal; lia.
    + destruct ((digit_char k =? 48)%N
                && ((digit_char k2 =? 120)%N || (digit_char k2 =? 88)%N))
        eqn:E.
      * exfalso. now apply (Hx _ E).
      * rewrite Hp; f_equal; lia.
  - unfold parseInt. cbn [map trimStart].
    change (is_space 45%N) with false. cbv iota.
    change (45 =? 45)%N with true. cbv iota.
    destruct ds as [|k2 ds]; cbn [map] in *.
    + rewrite Hp; f_equal; lia.
    + destruct ((digit_char k =? 48)%N
                && ((digit_char k2 =? 120)%N || (digit_char k2 =? 88)%N))
        eqn:E.
      * exfalso. now apply (Hx _ E).
      * rewrite Hp; f_equal; lia.
Qed.

Lemma value_of_acc d acc :
  fold_left (fun a k => a * 10 + k)%Z (udigits d) (Z.pos acc)
    = Z.pos (Pos.of_uint_acc d acc).
Proof.
  revert acc. induction d; intros acc; cbn [udigits fold_left Pos.of_uint_acc];
    [reflexivity|..];
    match goal with
    | |- fold_left _ _ ?a = Z.pos (Pos.of_uint_acc _ ?b) =>
        replace a with (Z.pos b) by lia
    end; apply IHd.
Qed.

Lemma value_of_uint d : value_of 10 (udigits d) = Z.of_N (Pos.of_uint d).
Proof.
  unfold value_of. induction d; cbn [udigits fold_left Pos.of_uint];
    [reflexivity | exact IHd |..];
    match goal with
    | |- fold_left _ _ ?a = Z.of_N (N.pos (Pos.of_uint_acc _ ?b)) =>
        change a with (Z.pos b)
    end; apply value_of_acc.
Qed.

Lemma parseInt_positive p :
  parseInt (js (NilZero.string_of_uint (Pos.to_uint p))) = Int (Z.pos p) /\
  parseInt (45%N :: js (NilZero.string_of_uint (Pos.to_uint p)))
    = Int (Z.neg p).
Proof.
  pose proof (Unsigned.to_uint_nonnil p) as Hnn.
  pose proof (Unsigned.of_to p) as Hof.
  assert (E : NilZero.string_of_uint (Pos.to_uint p)
              = NilEmpty.string_of_uint (Pos.to_uint p))
    by (destruct (Pos.to_uint p); [congruence | reflexivity..]).
  rewrite E, js_of_uint.
  assert (Hne : udigits (Pos.to_uint p) <> [])
    by (destruct (Pos.to_uint p); [congruence | discriminate..]).
  destruct (parseInt_decimal Hne (udigits_decimal _)) as [-> ->].
  now rewrite value_of_uint, Hof.
Qed.

(** X23. Decimal text reads back as the number it writes: for every
    integer [z] that a JavaScript number holds exactly (below 2^53 in
    magnitude) [parseInt(String(z))] is [z], so a [seconds] attribute
    that holds the decimal text of such an integer seeds the countdown
    with exactly that integer. *)
Theorem parseInt_reads_back_toString (z : Z) :
  (Z.abs z < 2 ^ 53)%Z ->
  parseInt (toString z) = Int z /\
  countdownSeed (Some (toString z)) = Int z.
Proof.
  intros _.
  assert (H : parseInt (toString z) = Int z).
  { unfold toString. destruct z as [|p|p].
    - reflexivity.
    - apply parseInt_positive.
    - apply (parseInt_positive p). }
  split; [exact H|].
  unfold countdownSeed.
  destruct (toString z) as [|c s]; [discriminate H | exact H].
Qed.

Lemma parseInt_reads_back_toString_witness :
  countdownSeed (Some (js "120")) = Int 120.
Proof.
  refine (proj2 (@parseInt_reads_back_toString 120 _)).
  vm_compute. reflexivity.
Defined.

End DecimalFacts.

(** ** The meter on an empty password, and what a phone number can
    contain *)

Section ResetAndAlphabet.

Import Password Phone.

(** X24. The meter of an empty password is reset to an empty bar in the
    neutral colour and no label, but the colour of the label is left as
    the last tier set it. For every other password the meter does not
    depend on what it showed before, and label and bar have one colour. *)
Theorem empty_password_resets_meter (m : meter) :
  checkPasswordStrength [] m =
    {| fill_width := js "0%"; fill_color := js "#e9ecef";
       text_content := []; text_color := text_color m |} /\
  (forall password m',
     password <> [] ->
     checkPasswordStrength password m = checkPasswordStrength password m' /\
     text_color (checkPasswordStrength password m)
       = fill_color (checkPasswordStrength password m) /\
     text_content (checkPasswordStrength password m) <> []).
Proof.
  split; [reflexivity|].
  intros password m' Hne.
  rewrite !checkPasswordStrength_shown by exact Hne.
  split; [reflexivity|].
  destruct (tier_of (strength password)); split;
    (reflexivity || discriminate).
Qed.

Lemma empty_password_resets_meter_witness :
  text_content (checkPasswordStrength (js "a") (shown Strong)) <> [].
Proof.
  refine (proj2 (proj2 (proj2 (@empty_password_resets_meter (shown Strong))
            (js "a") (shown Weak) _))).
  discriminate.
Defined.

Lemma In_firstn (c : code_unit) n l : In c (firstn n l) -> In c l.
Proof.
  intros H. rewrite <- (firstn_skipn n l). apply in_or_app. now left.
Qed.

(** X25. Whatever it is given, [formatPhoneNumber] returns digits and
    spaces only: signs, brackets, dashes and letters of the input never
    reach the result. *)
Theorem formatPhoneNumber_returns_digits_and_spaces
    (phone : js_string) (c : code_unit) :
  In c (formatPhoneNumber phone) -> digit c \/ c = 32%N.
Proof.
  rewrite formatPhoneNumber_reduced. cbv zeta.
  pose proof (@reduced_digits phone) as Hd.
  destruct (length (reduced phone) =? 10).
  - rewrite !in_app_iff.
    intros [H|[H|[H|[H|[H|H]]]]].
    + destruct H as [<-|[]]. left. unfold digit. simpl. lia.
    + left. eapply Hd, In_firstn, H.
    + destruct H as [<-|[]]. now right.
    + left. eapply Hd, In_skipn, In_firstn, H.
    + destruct H as [<-|[]]. now right.
    + left. eapply Hd, In_skipn, In_firstn, H.
  - intros H. left. now apply Hd.
Qed.

Lemma formatPhoneNumber_returns_digits_and_spaces_witness :
  digit 57%N \/ 57%N = 32%N.
Proof.
  refine (@formatPhoneNumber_returns_digits_and_spaces
            (js "+98 (912) 345-6789") 57%N _).
  vm_compute. auto.
Defined.

End ResetAndAlphabet.

(** ** Cookies whose name only ends in [access_token] *)

Section LookalikeCookies.

Import Cookie Session.

Lemma trimStart_plain c s : is_space c = false -> trimStart (c :: s) = c :: s.
Proof. intros H. simpl. now rewrite H. Qed.

Lemma trim_plain s :
  (forall c, In c s -> is_space c = false) -> trim s = s.
Proof.
  intros H. unfold trim, trimEnd.
  assert (Hs : forall l, (forall c, In c l -> is_space c = false) ->
                         trimStart l = l).
  { intros [|c l] Hl; [reflexivity|].
    apply trimStart_plain, Hl. now left. }
  rewrite (Hs s H), Hs, rev_involutive; [reflexivity|].
  intros c Hc. apply H. now apply in_rev.
Qed.

Lemma split_plain sep s : ~ In sep s -> split sep s = [s].
Proof.
  induction s as [|c s IH]; intros Hn; simpl; [reflexivity|].
  destruct (N.eqb_spec c sep) as [->|Hne].
  - exfalso. apply Hn. now left.
  - rewrite IH; [reflexivity|]. intros H. apply Hn. now right.
Qed.

Lemma before_plain sep a b : ~ In sep a -> before sep (a ++ sep :: b) = a.
Proof.
  induction a as [|c a IH]; intros Hn; simpl.
  - now rewrite N.eqb_refl.
  - destruct (N.eqb_spec c sep) as [->|Hne].
    + exfalso. apply Hn. now left.
    + rewrite IH; [reflexivity|]. intros H. apply Hn. now right.
Qed.

(** X26. [isLoggedIn] and [getToken] disagree on look-alike cookies: when
    the only cookie is one whose name merely ends in [access_token]
    (something written before it), [isLoggedIn] is true although
    [getToken] finds no token. *)
Theorem lookalike_cookie_logs_in_without_token (n v : js_string) :
  n <> [] ->
  (forall c, In c (n ++ v) ->
     is_space c = false /\ c <> 59%N /\ c <> 61%N) ->
  let cookie := n ++ access_token ++ 61%N :: v in
  isLoggedIn cookie = true /\ getToken cookie = TokNull.
Proof.
  intros Hne Hc cookie. subst cookie.
  assert (Hat : forall c, In c access_token ->
                  is_space c = false /\ c <> 59%N /\ c <> 61%N).
  { intros c H. vm_compute in H.
    repeat (destruct H as [<-|H];
            [split; [reflexivity | split; discriminate]|]).
    destruct H. }
  split.
  - apply includes_iff. now exists n, (61%N :: v).
  - assert (Hplain : forall c, In c (n ++ access_token ++ 61%N :: v) ->
                       is_space c = false /\ c <> 59%N).
    { intros c. rewrite !in_app_iff. cbn [In].
      intros [H|[H|[<-|H]]].
      - destruct (Hc c) as (? & ? & ?); [apply in_or_app; now left|auto].
      - destruct (Hat c H) as (? & ? & ?). auto.
      - split; [reflexivity|discriminate].
      - destruct (Hc c) as (? & ? & ?); [apply in_or_app; now right|auto]. }
    unfold getToken. rewrite split_plain
      by (intros H; now destruct (Hplain _ H) as [_ Hx]).
    cbn [scan]. pose proof (name_value_name
                              (n ++ access_token ++ 61%N :: v)) as Hn.
    destruct (name_value _) as [name value]. cbn [fst] in Hn. subst name.
    unfold cookie_name.
    rewrite trim_plain by (intros c H; now destruct (Hplain _ H)).
    rewrite app_assoc, before_plain.
    + assert (E : js_eqb (n ++ access_token) access_token = false).
      { apply js_eqb_neq. intros H.
        apply (f_equal (@length _)) in H. rewrite length_app in H.
        destruct n; [congruence | simpl in H; lia]. }
      now rewrite E.
    + rewrite in_app_iff. intros [H|H].
      * destruct (Hc 61%N) as (_ & _ & Hx); [apply in_or_app; now left|].
        congruence.
      * destruct (Hat _ H) as (_ & _ & Hx). congruence.
Qed.

Lemma lookalike_cookie_logs_in_without_token_witness :
  isLoggedIn (js "old_access_token=abc") = true /\
  getToken (js "old_access_token=abc") = TokNull.
Proof.
  refine (@lookalike_cookie_logs_in_without_token (js "old_") (js "abc")
            _ _).
  - discriminate.
  - intros c H. vm_compute in H.
    repeat (destruct H as [<-|H];
            [split; [reflexivity | split; discriminate]|]).
    destruct H.
Defined.

End LookalikeCookies.
